(** * Image gallery manager (script.js): repository, filters, selection

    A shallow embedding of the data/state core of [script.js] (the third,
    most recent snapshot of the program in the file, lines 3986-7016):
    the in-memory snapshot [allImages], the IndexedDB object store, the
    three filter variables, the selection set, the category directory and
    the per-entry step of the ZIP import.

    Conventions.
    - A JavaScript string is the list of its UTF-16 code units, so [===]
      on strings is list equality and the default [Array.prototype.sort]
      order is the lexicographic order on code units.
    - A field that can hold [undefined], [null], a boolean or a string is
      a [JS.value]; truthiness, [===] and [||] are written out.
    - [toUpperCase] and [toLowerCase] are built-ins of the host; they are
      a class parameter, and the results hold for every implementation.
    - DOM updates and toast notifications are not modelled.  Callbacks of
      the store run to completion in the order in which they are issued. *)

From Stdlib Require Import Ascii String List Bool NArith ZArith PeanoNat Lia.
Import ListNotations.

Set Implicit Arguments.

(* ================================================================== *)
(** ** JavaScript values and strings *)

Module JS.

Definition str := list N.

(** An ASCII literal of the source as code units. *)
Definition lit (s : string) : str :=
  map N_of_ascii (list_ascii_of_string s).

Fixpoint str_eqb (a b : str) : bool :=
  match a, b with
  | [], [] => true
  | x :: a', y :: b' => N.eqb x y && str_eqb a' b'
  | _, _ => false
  end.

(** Code-unit order, the order of [<] on strings and of the default
    [sort]. *)
Fixpoint str_leb (a b : str) : bool :=
  match a, b with
  | [], _ => true
  | _ :: _, [] => false
  | x :: a', y :: b' =>
      if N.ltb x y then true
      else if N.ltb y x then false
      else str_leb a' b'
  end.

Fixpoint startsWith (s p : str) : bool :=
  match p, s with
  | [], _ => true
  | _ :: _, [] => false
  | y :: p', x :: s' => N.eqb x y && startsWith s' p'
  end.

Definition endsWith (s p : str) : bool := startsWith (rev s) (rev p).

(** [s.split(sep)] for a one-character separator. *)
Fixpoint split (sep : N) (s : str) : list str :=
  match s with
  | [] => [[]]
  | c :: s' =>
      if N.eqb c sep then [] :: split sep s'
      else match split sep s' with
           | p :: ps => (c :: p) :: ps
           | [] => [[c]]
           end
  end.

(** [parts.join(sep)]. *)
Fixpoint join (sep : N) (parts : list str) : str :=
  match parts with
  | [] => []
  | [p] => p
  | p :: ps => p ++ sep :: join sep ps
  end.

(** [parts.pop()] read as a value: the last element. *)
Definition pop (parts : list str) : str := last parts [].

Inductive value :=
| Undefined
| Null
| Bool (b : bool)
| Str (s : str).

Definition truthy (v : value) : bool :=
  match v with
  | Undefined | Null => false
  | Bool b => b
  | Str [] => false
  | Str (_ :: _) => true
  end.

(** [a === b]. *)
Definition strict_eq (a b : value) : bool :=
  match a, b with
  | Undefined, Undefined => true
  | Null, Null => true
  | Bool x, Bool y => Bool.eqb x y
  | Str x, Str y => str_eqb x y
  | _, _ => false
  end.

(** [a || b]. *)
Definition or (a b : value) : value := if truthy a then a else b.

(** [String(v)], the key of the default [sort]. *)
Definition toString (v : value) : str :=
  match v with
  | Undefined => lit "undefined"
  | Null => lit "null"
  | Bool true => lit "true"
  | Bool false => lit "false"
  | Str s => s
  end.

(** [arr.includes(x)]. *)
Definition includes (arr : list value) (x : value) : bool :=
  existsb (fun y => strict_eq y x) arr.

Definition includes_str (arr : list str) (x : str) : bool :=
  existsb (fun y => str_eqb y x) arr.

(** Stable insertion by [String(x) <= String(y)]. *)
Fixpoint sort_insert (x : value) (l : list value) : list value :=
  match l with
  | [] => [x]
  | y :: l' =>
      if str_leb (toString x) (toString y) then x :: y :: l'
      else y :: sort_insert x l'
  end.

Definition is_undefined (v : value) : bool :=
  match v with Undefined => true | _ => false end.

(** [arr.sort()] without a comparator: [undefined] goes last, the rest
    is ordered by the code units of its string conversion; the sort is
    stable. *)
Definition sort (arr : list value) : list value :=
  fold_right sort_insert [] (filter (fun v => negb (is_undefined v)) arr)
  ++ filter is_undefined arr.

(** [new Set(arr)] spread back into an array: first occurrences, in
    order. *)
Fixpoint dedup_from (seen arr : list value) : list value :=
  match arr with
  | [] => []
  | x :: arr' =>
      if includes seen x then dedup_from seen arr'
      else x :: dedup_from (x :: seen) arr'
  end.

Definition dedup (arr : list value) : list value := dedup_from [] arr.

(** The host's case mappings. *)
Class Casing := {
  toUpperCase : str -> str;
  toLowerCase : str -> str
}.

(** The mappings restricted to the ASCII letters, for running the
    model on ASCII names. *)
Definition ascii_upper (c : N) : N :=
  if (N.leb 97 c && N.leb c 122)%bool then (c - 32)%N else c.
Definition ascii_lower (c : N) : N :=
  if (N.leb 65 c && N.leb c 90)%bool then (c + 32)%N else c.

End JS.

#[global] Instance ascii_casing : JS.Casing :=
  {| JS.toUpperCase := map JS.ascii_upper;
     JS.toLowerCase := map JS.ascii_lower |}.

Import JS.

(** [selectedIds]: a [Set] of store keys.  Insertion order is kept, as
    in the host. *)
Module JSSet.
Definition t := list N.
Definition empty : t := [].
Definition has (s : t) (k : N) : bool := existsb (N.eqb k) s.
Definition add (s : t) (k : N) : t := if has s k then s else s ++ [k].
Definition delete (s : t) (k : N) : t :=
  filter (fun x => negb (N.eqb k x)) s.
Definition clear (s : t) : t := empty.
Definition size (s : t) : nat := length s.
End JSSet.

(* ================================================================== *)
(** ** Constants of the source *)

Definition SLASH : N := 47.
Definition DOT : N := 46.

(** ['其他'] (U+5176 U+4ED6). *)
Definition OTHER : str := [0x5176; 0x4ED6]%N.
(** ['全部'] (U+5168 U+90E8). *)
Definition QUANBU : str := [0x5168; 0x90E8]%N.

Definition EMPTY_PREFIX : str := lit "__EMPTY_IMAGE__".
Definition ALL_FILTER : str := lit "all".
Definition DSC : str := lit "DSC".
Definition TGA : str := lit "TGA".
Definition ALL : str := lit "ALL".

(* ================================================================== *)
(** ** Records, store and program state *)

Record ImageRecord := {
  id : option N;
  name : str;
  category : value;
  tags : option (list str);
  data : str;
  date : str;
  isEmptyCategory : value
}.

Definition set_category (c : value) (r : ImageRecord) : ImageRecord :=
  {| id := id r; name := name r; category := c; tags := tags r;
     data := data r; date := date r; isEmptyCategory := isEmptyCategory r |}.

Definition set_id (k : option N) (r : ImageRecord) : ImageRecord :=
  {| id := k; name := name r; category := category r; tags := tags r;
     data := data r; date := date r; isEmptyCategory := isEmptyCategory r |}.

Definition set_tags (t : option (list str)) (r : ImageRecord) : ImageRecord :=
  {| id := id r; name := name r; category := category r; tags := t;
     data := data r; date := date r; isEmptyCategory := isEmptyCategory r |}.

(** The object store [images]: rows in key order and the key generator
    ([keyPath: "id", autoIncrement: true]). *)
Record Store := {
  rows : list ImageRecord;
  nextKey : N
}.

Definition store_add (r : ImageRecord) (s : Store) : Store :=
  {| rows := rows s ++ [set_id (Some (nextKey s)) r];
     nextKey := N.succ (nextKey s) |}.

Record State := {
  db : Store;
  allImages : list ImageRecord;
  selectedIds : JSSet.t;
  currentFilter : str;
  currentTagFilters : list str;
  currentModeFilter : str
}.

Definition with_selectedIds (s : JSSet.t) (st : State) : State :=
  {| db := db st; allImages := allImages st; selectedIds := s;
     currentFilter := currentFilter st;
     currentTagFilters := currentTagFilters st;
     currentModeFilter := currentModeFilter st |}.

Definition with_modeFilter (m : str) (st : State) : State :=
  {| db := db st; allImages := allImages st; selectedIds := selectedIds st;
     currentFilter := currentFilter st;
     currentTagFilters := currentTagFilters st;
     currentModeFilter := m |}.

Definition with_db (d : Store) (st : State) : State :=
  {| db := d; allImages := allImages st; selectedIds := selectedIds st;
     currentFilter := currentFilter st;
     currentTagFilters := currentTagFilters st;
     currentModeFilter := currentModeFilter st |}.

(** [loadImages]: the snapshot is replaced by the rows of the store. *)
Definition loadImages (st : State) : State :=
  {| db := db st; allImages := rows (db st); selectedIds := selectedIds st;
     currentFilter := currentFilter st;
     currentTagFilters := currentTagFilters st;
     currentModeFilter := currentModeFilter st |}.

(** A sentinel is a record whose [isEmptyCategory] is truthy; a real
    record passes [!img.isEmptyCategory]. *)
Definition is_real (img : ImageRecord) : bool :=
  negb (truthy (isEmptyCategory img)).

(* ================================================================== *)
(** ** Name helpers *)

(** [name.replace(/\.[^/.]+$/, "")]: the match starts at the last dot
    and runs to the end through one or more characters other than [/]
    and [.]. *)
Fixpoint span_ext (r : str) : str * str :=
  match r with
  | [] => ([], [])
  | c :: r' =>
      if N.eqb c SLASH || N.eqb c DOT then ([], r)
      else let (e, rest) := span_ext r' in (c :: e, rest)
  end.

Definition removeFileExtension (name : str) : str :=
  match span_ext (rev name) with
  | (_ :: _, c :: pre) => if N.eqb c DOT then rev pre else name
  | _ => name
  end.

Section Filters.

Context {casing : Casing}.

Definition hasSuffix (name suffix : str) : bool :=
  let baseName := removeFileExtension name in
  endsWith (toUpperCase baseName) (toUpperCase suffix).

(** The callback of the tag filter: every filter tag is among the
    record's tags. *)
Definition tags_match (filters : list str) (img : ImageRecord) : bool :=
  match tags img with
  | None => false
  | Some [] => false
  | Some ts => forallb (fun tag => includes_str ts tag) filters
  end.

(** The ['其他'] test of [renderGallery], [selectAllVisible] and
    [updateUI]. *)
Definition other_match (img : ImageRecord) : bool :=
  strict_eq (category img) Null
  || strict_eq (category img) (Str [])
  || strict_eq (category img) (Str OTHER).

(** The mode filter is active when
    [currentModeFilter && currentModeFilter !== 'ALL']. *)
Definition mode_active (m : str) : bool :=
  truthy (Str m) && negb (str_eqb m ALL).

(** [renderGallery], lines 4331-4357: the array [filtered]. *)
Definition renderGallery_filtered (st : State) : list ImageRecord :=
  let filtered := allImages st in
  let filtered := filter is_real filtered in
  let filtered :=
    if negb (str_eqb (currentFilter st) ALL_FILTER) then
      if str_eqb (currentFilter st) OTHER then filter other_match filtered
      else filter (fun img =>
                     strict_eq (category img) (Str (currentFilter st)))
                  filtered
    else filtered in
  let filtered :=
    if (0 <? length (currentTagFilters st))%nat
    then filter (tags_match (currentTagFilters st)) filtered
    else filtered in
  let filtered :=
    if mode_active (currentModeFilter st)
    then filter (fun img => hasSuffix (name img) (currentModeFilter st))
                filtered
    else filtered in
  filtered.

(** [selectAllVisible], lines 4405-4429: the array [visible]. *)
Definition selectAllVisible_visible (st : State) : list ImageRecord :=
  let visible := allImages st in
  let visible := filter is_real visible in
  let visible :=
    if negb (str_eqb (currentFilter st) ALL_FILTER) then
      if str_eqb (currentFilter st) OTHER then filter other_match visible
      else filter (fun img =>
                     strict_eq (category img) (Str (currentFilter st)))
                  visible
    else visible in
  let visible :=
    if (0 <? length (currentTagFilters st))%nat
    then filter (tags_match (currentTagFilters st)) visible
    else visible in
  let visible :=
    if mode_active (currentModeFilter st)
    then filter (fun img => hasSuffix (name img) (currentModeFilter st))
                visible
    else visible in
  visible.

(** [visible.forEach(img => { if (img.id != null) selectedIds.add(img.id) })] *)
Definition add_ids (visible : list ImageRecord) (sel : JSSet.t) : JSSet.t :=
  fold_left (fun s img =>
               match id img with
               | Some k => JSSet.add s k
               | None => s
               end) visible sel.

Definition selectAllVisible (st : State) : State :=
  with_selectedIds (add_ids (selectAllVisible_visible st) (selectedIds st)) st.

(** [clearSelection]: [selectedIds.clear()]. *)
Definition clearSelection (st : State) : State :=
  with_selectedIds (JSSet.clear (selectedIds st)) st.

(** [toggleModeFilter]. *)
Definition toggleModeFilter (st : State) : State :=
  if str_eqb (currentModeFilter st) DSC then with_modeFilter TGA st
  else if str_eqb (currentModeFilter st) TGA then with_modeFilter ALL st
  else with_modeFilter DSC st.

End Filters.

(* ================================================================== *)
(** ** Select-all toggle *)

Section Toggle.

Context {casing : Casing}.

(** [toggleSelectAll], lines 4599-4621: the array [visible].  The tag
    filter sits inside the [currentFilter !== 'all'] block, and the
    ['其他'] case tests [null] and [''] only. *)
Definition toggleSelectAll_visible (st : State) : list ImageRecord :=
  let visible := allImages st in
  let visible := filter is_real visible in
  let visible :=
    if negb (str_eqb (currentFilter st) ALL_FILTER) then
      let visible :=
        if str_eqb (currentFilter st) OTHER then
          filter (fun img => strict_eq (category img) Null
                             || strict_eq (category img) (Str []))
                 visible
        else filter (fun img =>
                       strict_eq (category img) (Str (currentFilter st)))
                    visible in
      if (0 <? length (currentTagFilters st))%nat
      then filter (tags_match (currentTagFilters st)) visible
      else visible
    else visible in
  let visible :=
    if mode_active (currentModeFilter st)
    then filter (fun img => hasSuffix (name img) (currentModeFilter st))
                visible
    else visible in
  visible.

(** [selectedIds.has(img.id)]; the set holds store keys only, so a
    record without a key is not a member. *)
Definition has_id (sel : JSSet.t) (img : ImageRecord) : bool :=
  match id img with
  | Some k => JSSet.has sel k
  | None => false
  end.

Definition has_key (img : ImageRecord) : bool :=
  match id img with Some _ => true | None => false end.

(** The test [selectedVisibleCount === visibleCount && visibleCount > 0]. *)
Definition toggleSelectAll_all_selected (st : State) : bool :=
  let visible := toggleSelectAll_visible st in
  let visibleCount := length (filter has_key visible) in
  let selectedVisibleCount :=
    length (filter (has_id (selectedIds st)) visible) in
  Nat.eqb selectedVisibleCount visibleCount && (0 <? visibleCount)%nat.

(** The deselecting loop of [toggleSelectAll]. *)
Definition remove_ids (visible : list ImageRecord) (sel : JSSet.t)
  : JSSet.t :=
  fold_left (fun s img =>
               match id img with
               | Some k => if JSSet.has s k then JSSet.delete s k else s
               | None => s
               end) visible sel.

(** The selecting loop of [toggleSelectAll]. *)
Definition insert_ids (visible : list ImageRecord) (sel : JSSet.t)
  : JSSet.t :=
  fold_left (fun s img =>
               match id img with
               | Some k => if negb (JSSet.has s k) then JSSet.add s k else s
               | None => s
               end) visible sel.

Definition toggleSelectAll (st : State) : State :=
  let visible := toggleSelectAll_visible st in
  if toggleSelectAll_all_selected st
  then with_selectedIds (remove_ids visible (selectedIds st)) st
  else with_selectedIds (insert_ids visible (selectedIds st)) st.

End Toggle.

(* ================================================================== *)
(** ** Repository: duplicate check, save, cursor scans *)

(** [checkDuplicateImage]: [allImages.some(img => img.name === fileName)]. *)
Definition checkDuplicateImage (imgs : list ImageRecord) (fileName : str)
  : bool :=
  existsb (fun img => str_eqb (name img) fileName) imgs.

(** What a cursor handler does with the row under the cursor before it
    calls [cursor.continue()]. *)
Inductive cursor_op :=
| CursorContinue
| CursorUpdate (v : ImageRecord)
| CursorDelete.

(** A scan whose handler always continues; the rows are visited in key
    order. *)
Fixpoint openCursor (step : ImageRecord -> cursor_op)
  (rs : list ImageRecord) : list ImageRecord :=
  match rs with
  | [] => []
  | r :: rs' =>
      match step r with
      | CursorContinue => r :: openCursor step rs'
      | CursorUpdate v => v :: openCursor step rs'
      | CursorDelete => openCursor step rs'
      end
  end.

(** A scan whose handler updates the first matching row and returns
    without continuing; [None] when the cursor runs out unmatched. *)
Fixpoint openCursor_first (p : ImageRecord -> bool)
  (f : ImageRecord -> ImageRecord) (rs : list ImageRecord)
  : option (list ImageRecord) :=
  match rs with
  | [] => None
  | r :: rs' =>
      if p r then Some (f r :: rs')
      else option_map (cons r) (openCursor_first p f rs')
  end.

Definition with_rows (rs : list ImageRecord) (s : Store) : Store :=
  {| rows := rs; nextKey := nextKey s |}.

(** A [File] or [Blob] as the program reads it: its name and the data
    URL that [readAsDataURL] yields. *)
Record File := {
  file_name : str;
  file_dataURL : str
}.

(** [updateExistingImage]; [now] is [new Date().toLocaleString()].  The
    reload is installed only when a row matched. *)
Definition updateExistingImage (now : str) (file : File) (cat : str)
  (st : State) : State :=
  match openCursor_first
          (fun item => str_eqb (name item) (file_name file))
          (fun item =>
             {| id := id item; name := name item;
                category := JS.or (Str cat) (category item);
                tags := tags item; data := file_dataURL file;
                date := now; isEmptyCategory := isEmptyCategory item |})
          (rows (db st)) with
  | Some rs => loadImages (with_db (with_rows rs (db st)) st)
  | None => st
  end.

(** [saveImage]; [confirm] is the user's answer to the overwrite
    prompt for a file name. *)
Definition saveImage (confirm : str -> bool) (now : str) (file : File)
  (cat : str) (st : State) : State :=
  if checkDuplicateImage (allImages st) (file_name file) then
    if confirm (file_name file)
    then updateExistingImage now file cat st
    else st
  else
    let imageData :=
      {| id := None; name := file_name file;
         category := JS.or (Str cat) (Str []);
         tags := Some []; data := file_dataURL file;
         date := now; isEmptyCategory := Undefined |} in
    loadImages (with_db (store_add imageData (db st)) st).

(* ================================================================== *)
(** ** Category directory *)

(** [renderCategories], lines 4189-4202: the array [allCategories] that
    the side bar lists. *)
Definition renderCategories_allCategories (imgs : list ImageRecord)
  : list value :=
  let emptyCategoryRecords :=
    map category
        (filter (fun img => truthy (isEmptyCategory img)
                            && startsWith (name img) EMPTY_PREFIX) imgs) in
  let realCategories := map category (filter is_real imgs) in
  let allCategories :=
    filter (fun cat => negb (strict_eq cat Undefined)
                       && negb (strict_eq cat (Str []))
                       && negb (strict_eq cat (Str ALL_FILTER))
                       && negb (strict_eq cat (Str QUANBU)))
           (dedup (emptyCategoryRecords ++ realCategories)) in
  let allCategories :=
    if negb (includes allCategories (Str OTHER))
    then allCategories ++ [Str OTHER]
    else allCategories in
  sort allCategories.

(** [[...new Set(allImages.map(img => img.category).filter(cat => cat))]] *)
Definition existingCategories (imgs : list ImageRecord) : list value :=
  dedup (filter truthy (map category imgs)).

(** Which notification an operation of the directory ends with. *)
Inductive Outcome :=
| RejectedReserved
| RejectedExists
| Succeeded.

(** [addCategory]. *)
Definition addCategory (now : str) (nm : str) (st : State)
  : Outcome * State :=
  if str_eqb nm QUANBU || str_eqb nm OTHER then (RejectedReserved, st)
  else if includes (existingCategories (allImages st)) (Str nm)
  then (RejectedExists, st)
  else
    let emptyCategoryRecord :=
      {| id := None; name := EMPTY_PREFIX ++ nm; category := Str nm;
         tags := Some []; data := []; date := now;
         isEmptyCategory := Bool true |} in
    (Succeeded,
     loadImages (with_db (store_add emptyCategoryRecord (db st)) st)).

(** The cursor handler of [renameCategory], lines 5861-5872. *)
Definition renameCategory_step (oldName newName : str)
  (value : ImageRecord) : cursor_op :=
  if strict_eq (category value) (Str oldName) then
    CursorUpdate (set_category (Str newName) value)
  else if truthy (isEmptyCategory value)
          && strict_eq (category value) (Str oldName) then
    CursorUpdate
      {| id := id value; name := EMPTY_PREFIX ++ newName;
         category := Str newName; tags := tags value;
         data := data value; date := date value;
         isEmptyCategory := isEmptyCategory value |}
  else CursorContinue.

(** [renameCategory]. *)
Definition renameCategory (oldName newName : str) (st : State)
  : Outcome * State :=
  if str_eqb newName QUANBU || str_eqb newName OTHER
  then (RejectedReserved, st)
  else if includes (existingCategories (allImages st)) (Str newName)
  then (RejectedExists, st)
  else
    (Succeeded,
     loadImages
       (with_db (with_rows (openCursor (renameCategory_step oldName newName)
                                       (rows (db st)))
                           (db st)) st)).

(** The cursor handler of [deleteCategory], lines 5960-5972. *)
Definition deleteCategory_step (nm : str) (value : ImageRecord)
  : cursor_op :=
  if strict_eq (category value) (Str nm) then
    if truthy (isEmptyCategory value) then CursorDelete
    else CursorUpdate (set_category Null value)
  else CursorContinue.

(** [deleteCategory]. *)
Definition deleteCategory (nm : str) (st : State) : State :=
  loadImages
    (with_db (with_rows (openCursor (deleteCategory_step nm) (rows (db st)))
                        (db st)) st).

(* ================================================================== *)
(** ** ZIP import: one entry *)

Record ZipEntry := {
  entry_dir : bool;
  entry_base64 : str
}.

Record ImportCounts := {
  totalFiles : nat;
  importedFiles : nat;
  skippedFiles : nat
}.

Definition IMAGE_EXTS : list str :=
  [lit "jpg"; lit "jpeg"; lit "png"; lit "gif"; lit "bmp"; lit "webp"].

(** Lines 5238-5245: the pair [(category, actualFilename)]. *)
Definition handleZipFile_split (filename : str) : str * str :=
  let parts := split SLASH filename in
  if (1 <? length parts)%nat
  then (hd [] parts, join SLASH (tl parts))
  else ([], filename).

Section ZipImport.

Context {casing : Casing}.

(** One iteration of the loop of [handleZipFile], lines 5231-5298, on
    the entry [zipEntry] stored under [filename]; [overwrite] is the
    state of the import dialog's check box.  The blob handed to
    [saveImage] carries the entry's bytes, so reading it back gives
    the data URL [base64Data]. *)
Definition handleZipFile_entry (overwrite : bool) (confirm : str -> bool)
  (now : str) (filename : str) (zipEntry : ZipEntry)
  (acc : State * ImportCounts) : State * ImportCounts :=
  let (st, n) := acc in
  if entry_dir zipEntry || str_eqb filename (lit "tags.json") then acc
  else
    let total := S (totalFiles n) in
    let (cat, actualFilename) := handleZipFile_split filename in
    let ext := toLowerCase (pop (split DOT actualFilename)) in
    if includes_str IMAGE_EXTS ext then
      let existingImage :=
        find (fun img => str_eqb (name img) actualFilename)
             (allImages st) in
      if match existingImage with Some _ => true | None => false end
         && negb overwrite
      then (st, {| totalFiles := total; importedFiles := importedFiles n;
                   skippedFiles := S (skippedFiles n) |})
      else
        let base64Data :=
          lit "data:image/" ++ ext ++ lit ";base64,"
              ++ entry_base64 zipEntry in
        let blob := {| file_name := actualFilename;
                       file_dataURL := base64Data |} in
        let st' :=
          saveImage confirm now blob
            (if truthy (Str cat) then cat else ALL_FILTER) st in
        (st', {| totalFiles := total;
                 importedFiles := S (importedFiles n);
                 skippedFiles := skippedFiles n |})
    else (st, {| totalFiles := total; importedFiles := importedFiles n;
                 skippedFiles := skippedFiles n |}).

End ZipImport.

(* ================================================================== *)
(** ** Notions used in the statements, and sample data *)

(** The keys of the records of an array, in order. *)
Definition ids_of (l : list ImageRecord) : list N :=
  flat_map (fun img => match id img with Some k => [k] | None => [] end) l.

(** The state at start-up: an empty repository and the initial filters
    of the source. *)
Definition initial_state : State :=
  {| db := {| rows := []; nextKey := 1 |};
     allImages := [];
     selectedIds := JSSet.empty;
     currentFilter := ALL_FILTER;
     currentTagFilters := [];
     currentModeFilter := ALL |}.

(** A loaded state: the snapshot mirrors the store. *)
Definition loaded (imgs : list ImageRecord) (sel : JSSet.t)
  (cat : str) (tagFilters : list str) (mode : str) : State :=
  {| db := {| rows := imgs; nextKey := N.of_nat (length imgs) + 1 |};
     allImages := imgs;
     selectedIds := sel;
     currentFilter := cat;
     currentTagFilters := tagFilters;
     currentModeFilter := mode |}.

Definition SAMPLE_DATE : str := lit "2024/1/1 08:00:00".
Definition SAMPLE_DATA : str := lit "data:image/png;base64,QUJD".

(** A real image record, as [saveImage] stores it. *)
Definition real_record (k : N) (nm : str) (cat : value)
  (ts : list str) : ImageRecord :=
  {| id := Some k; name := nm; category := cat; tags := Some ts;
     data := SAMPLE_DATA; date := SAMPLE_DATE;
     isEmptyCategory := Undefined |}.

(** A sentinel record, as [addCategory] stores it. *)
Definition sentinel_record (k : N) (cat : str) : ImageRecord :=
  {| id := Some k; name := EMPTY_PREFIX ++ cat; category := Str cat;
     tags := Some []; data := []; date := SAMPLE_DATE;
     isEmptyCategory := Bool true |}.

(** ['测试'] (U+6D4B U+8BD5), a category name. *)
Definition CESHI : str := [0x6D4B; 0x8BD5]%N.

Definition no_counts : ImportCounts :=
  {| totalFiles := 0; importedFiles := 0; skippedFiles := 0 |}.

(** Two real images of category [Lab], the first tagged [PBT], the
    second untagged, under the category filter ['all'] with the tag
    filter [PBT]. *)
Definition tagged_state : State :=
  loaded [real_record 1 (lit "x_DSC.jpg") (Str (lit "Lab")) [lit "PBT"];
          real_record 2 (lit "y_DSC.jpg") (Str (lit "Lab")) []]
         JSSet.empty ALL_FILTER [lit "PBT"] ALL.

(** What the scan of [deleteCategory] does to one row. *)
Definition deleteCategory_row (nm : str) (r : ImageRecord)
  : list ImageRecord :=
  if strict_eq (category r) (Str nm) then
    if is_real r then [set_category Null r] else []
  else [r].

Section Stages.

Context {casing : Casing}.

(** The mode stage, the last stage of the three pipelines. *)
Definition mode_stage (st : State) (l : list ImageRecord)
  : list ImageRecord :=
  if mode_active (currentModeFilter st)
  then filter (fun img => hasSuffix (name img) (currentModeFilter st)) l
  else l.

End Stages.

(* ================================================================== *)
(** ** Further operations: selection, filters, button label *)

(** ['取消全选'] and ['全选'], the two texts of the select-all button. *)
Definition LABEL_DESELECT_ALL : str := [0x53D6; 0x6D88; 0x5168; 0x9009]%N.
Definition LABEL_SELECT_ALL : str := [0x5168; 0x9009]%N.

(** ['未分类'] (U+672A U+5206 U+7C7B), the export folder of images
    without category. *)
Definition UNCATEGORIZED : str := [0x672A; 0x5206; 0x7C7B]%N.

(** [toggleSelect(id)]. *)
Definition toggleSelect (k : N) (st : State) : State :=
  if JSSet.has (selectedIds st) k
  then with_selectedIds (JSSet.delete (selectedIds st) k) st
  else with_selectedIds (JSSet.add (selectedIds st) k) st.

(** [filterCategory(cat)]: the category filter is set and the tag
    filters are reset. *)
Definition filterCategory (cat : str) (st : State) : State :=
  {| db := db st; allImages := allImages st; selectedIds := selectedIds st;
     currentFilter := cat;
     currentTagFilters := [];
     currentModeFilter := currentModeFilter st |}.

Definition with_tagFilters (ts : list str) (st : State) : State :=
  {| db := db st; allImages := allImages st; selectedIds := selectedIds st;
     currentFilter := currentFilter st;
     currentTagFilters := ts;
     currentModeFilter := currentModeFilter st |}.

(** [toggleTag(tag)]: single selection. *)
Definition toggleTag (tag : str) (st : State) : State :=
  if str_eqb tag ALL_FILTER then with_tagFilters [] st
  else with_tagFilters [tag] st.

Section ButtonLabel.

Context {casing : Casing}.

(** [updateUI], lines 4474-4497: the array [visible]. *)
Definition updateUI_visible (st : State) : list ImageRecord :=
  let visible := allImages st in
  let visible := filter is_real visible in
  let visible :=
    if negb (str_eqb (currentFilter st) ALL_FILTER) then
      if str_eqb (currentFilter st) OTHER then filter other_match visible
      else filter (fun img =>
                     strict_eq (category img) (Str (currentFilter st)))
                  visible
    else visible in
  let visible :=
    if (0 <? length (currentTagFilters st))%nat
    then filter (tags_match (currentTagFilters st)) visible
    else visible in
  let visible :=
    if mode_active (currentModeFilter st)
    then filter (fun img => hasSuffix (name img) (currentModeFilter st))
                visible
    else visible in
  visible.

(** [updateUI], lines 4499-4509: the text of the select-all button. *)
Definition updateUI_label (st : State) : str :=
  let visible := updateUI_visible st in
  let visibleCount := length (filter has_key visible) in
  let selectedVisibleCount :=
    length (filter (has_id (selectedIds st)) visible) in
  if Nat.eqb selectedVisibleCount visibleCount && (0 <? visibleCount)%nat
  then LABEL_DESELECT_ALL
  else LABEL_SELECT_ALL.

End ButtonLabel.

(* ================================================================== *)
(** ** Further operations: tags *)

(** The tags of a record read as [img.tags || []]. *)
Definition tags_or_empty (img : ImageRecord) : list str :=
  match tags img with Some ts => ts | None => [] end.

(** [[...new Set(allImages.filter(img => img.tags).flatMap(img => img.tags))]];
    only membership in it is ever asked. *)
Fixpoint dedup_str_from (seen arr : list str) : list str :=
  match arr with
  | [] => []
  | x :: arr' =>
      if includes_str seen x then dedup_str_from seen arr'
      else x :: dedup_str_from (x :: seen) arr'
  end.

Definition existingTags (imgs : list ImageRecord) : list str :=
  dedup_str_from []
    (flat_map tags_or_empty
       (filter (fun img => match tags img with Some _ => true | None => false end)
               imgs)).

(** The cursor handler of [renameTagNew], lines 5904-5911. *)
Definition renameTagNew_step (oldName newName : str) (value : ImageRecord)
  : cursor_op :=
  match tags value with
  | Some ts =>
      if includes_str ts oldName then
        CursorUpdate
          (set_tags (Some (map (fun tag => if str_eqb tag oldName
                                           then newName else tag) ts))
                    value)
      else CursorContinue
  | None => CursorContinue
  end.

(** [renameTagNew]. *)
Definition renameTagNew (oldName newName : str) (st : State)
  : Outcome * State :=
  if includes_str (existingTags (allImages st)) newName
  then (RejectedExists, st)
  else
    (Succeeded,
     loadImages
       (with_db (with_rows (openCursor (renameTagNew_step oldName newName)
                                       (rows (db st)))
                           (db st)) st)).

(** The cursor handler of [deleteTagNew], lines 6082-6089. *)
Definition deleteTagNew_step (nm : str) (value : ImageRecord) : cursor_op :=
  match tags value with
  | Some ts =>
      if includes_str ts nm then
        CursorUpdate
          (set_tags (Some (filter (fun tag => negb (str_eqb tag nm)) ts))
                    value)
      else CursorContinue
  | None => CursorContinue
  end.

(** [deleteTagNew]. *)
Definition deleteTagNew (nm : str) (st : State) : State :=
  loadImages
    (with_db (with_rows (openCursor (deleteTagNew_step nm) (rows (db st)))
                        (db st)) st).

(** [updateImageTagsByName]: the first row of that name gets the tags;
    the snapshot is not reloaded here. *)
Definition updateImageTagsByName (imageName : str) (newTags : list str)
  (st : State) : State :=
  match openCursor_first (fun value => str_eqb (name value) imageName)
                         (set_tags (Some newTags)) (rows (db st)) with
  | Some rs => with_db (with_rows rs (db st)) st
  | None => st
  end.

(** [value.id === imageId] for a key [imageId]. *)
Definition id_is (k : N) (img : ImageRecord) : bool :=
  match id img with Some j => N.eqb j k | None => false end.

(** [updateImageTags]: the same by key. *)
Definition updateImageTags (imageId : N) (newTags : list str)
  (st : State) : State :=
  match openCursor_first (id_is imageId) (set_tags (Some newTags))
                         (rows (db st)) with
  | Some rs => with_db (with_rows rs (db st)) st
  | None => st
  end.

(* ================================================================== *)
(** ** Further operations: deleting the selection, dropping files *)

(** [deleteSelectedImages]: the rows whose key is selected are deleted,
    the snapshot is reloaded and the selection cleared. *)
Definition deleteSelectedImages (st : State) : State :=
  if Nat.eqb (JSSet.size (selectedIds st)) 0 then st
  else
    let idsToDelete := selectedIds st in
    let st' :=
      loadImages
        (with_db
           (with_rows
              (openCursor (fun value => if has_id idsToDelete value
                                        then CursorDelete else CursorContinue)
                          (rows (db st)))
              (db st)) st) in
    with_selectedIds (JSSet.clear (selectedIds st')) st'.

(** [updateExistingImageWithTags]. *)
Definition updateExistingImageWithTags (now : str) (file : File) (cat : str)
  (ts : list str) (st : State) : State :=
  match openCursor_first
          (fun item => str_eqb (name item) (file_name file))
          (fun item =>
             {| id := id item; name := name item;
                category := JS.or (Str cat) (category item);
                tags := Some ts; data := file_dataURL file;
                date := now; isEmptyCategory := isEmptyCategory item |})
          (rows (db st)) with
  | Some rs => loadImages (with_db (with_rows rs (db st)) st)
  | None => st
  end.

(** [saveImageWithCurrentTags]. *)
Definition saveImageWithCurrentTags (confirm : str -> bool) (now : str)
  (file : File) (cat : str) (ts : list str) (st : State) : State :=
  if checkDuplicateImage (allImages st) (file_name file) then
    if confirm (file_name file)
    then updateExistingImageWithTags now file cat ts st
    else st
  else
    let imageData :=
      {| id := None; name := file_name file;
         category := JS.or (Str cat) (Str []);
         tags := Some ts; data := file_dataURL file;
         date := now; isEmptyCategory := Undefined |} in
    loadImages (with_db (store_add imageData (db st)) st).

(** [handleDrop] on one dropped file of MIME type [ftype]: an image is
    saved under the current category filter with the current tag
    filters. *)
Definition handleDrop_file (confirm : str -> bool) (now : str)
  (ftype : str) (file : File) (st : State) : State :=
  if startsWith ftype (lit "image/")
  then saveImageWithCurrentTags confirm now file (currentFilter st)
                                (currentTagFilters st) st
  else st.

(* ================================================================== *)
(** ** Further operations: the detail dialog *)

Definition with_allImages (imgs : list ImageRecord) (st : State) : State :=
  {| db := db st; allImages := imgs; selectedIds := selectedIds st;
     currentFilter := currentFilter st;
     currentTagFilters := currentTagFilters st;
     currentModeFilter := currentModeFilter st |}.

(** [i.id === currentDetailId]; [currentDetailId] is [null] ([None])
    while no dialog is open. *)
Definition detail_is (currentDetailId : option N) (i : ImageRecord) : bool :=
  match currentDetailId with
  | Some k => id_is k i
  | None => false
  end.

(** The object that [find] returns is changed in place: in the array,
    the first element that passes the test is the one that changes. *)
Fixpoint update_first (p : ImageRecord -> bool)
  (f : ImageRecord -> ImageRecord) (l : list ImageRecord)
  : list ImageRecord :=
  match l with
  | [] => []
  | x :: l' => if p x then f x :: l' else x :: update_first p f l'
  end.

(** [addTagToDetail]; [tag] is the trimmed text of the input. *)
Definition addTagToDetail (currentDetailId : option N) (tag : str)
  (st : State) : State :=
  if negb (truthy (Str tag)) then st
  else
    match find (detail_is currentDetailId) (allImages st) with
    | None => st
    | Some img =>
        let currentTags := tags_or_empty img in
        if includes_str currentTags tag then st
        else
          with_allImages
            (update_first (detail_is currentDetailId)
                          (set_tags (Some (currentTags ++ [tag])))
                          (allImages st)) st
    end.

(** [removeTagFromDetail]. *)
Definition removeTagFromDetail (currentDetailId : option N) (tag : str)
  (st : State) : State :=
  match find (detail_is currentDetailId) (allImages st) with
  | None => st
  | Some img =>
      with_allImages
        (update_first (detail_is currentDetailId)
           (fun i => set_tags
                       (Some (filter (fun t => negb (str_eqb t tag))
                                     (tags_or_empty i))) i)
           (allImages st)) st
  end.




(* ================================================================== *)
(** ** Further operations: the compare view *)

Record CompareState := {
  compareImages : list ImageRecord;
  currentPage : Z
}.

Definition IMAGES_PER_PAGE : Z := 4.

(** [Math.ceil(compareImages.length / IMAGES_PER_PAGE)]. *)
Definition totalPages (cs : CompareState) : Z :=
  ((Z.of_nat (length (compareImages cs)) + (IMAGES_PER_PAGE - 1))
   / IMAGES_PER_PAGE)%Z.

(** [openCompare]. *)
Definition openCompare (st : State) (cs : CompareState) : CompareState :=
  if Nat.eqb (JSSet.size (selectedIds st)) 0 then cs
  else {| compareImages := filter (has_id (selectedIds st)) (allImages st);
          currentPage := 0 |}.

(** [closeCompare]. *)
Definition closeCompare (cs : CompareState) : CompareState :=
  {| compareImages := compareImages cs; currentPage := 0 |}.

(** [nextPage]. *)
Definition nextPage (cs : CompareState) : CompareState :=
  if (currentPage cs <? totalPages cs - 1)%Z
  then {| compareImages := compareImages cs;
          currentPage := (currentPage cs + 1)%Z |}
  else cs.

(** [prevPage]. *)
Definition prevPage (cs : CompareState) : CompareState :=
  if (0 <? currentPage cs)%Z
  then {| compareImages := compareImages cs;
          currentPage := (currentPage cs - 1)%Z |}
  else cs.

(* ================================================================== *)
(** ** Further operations: export, the management list *)

(** [exportSelected]: the images handed to the export dialog. *)
Definition exportSelected_selectedImages (st : State) : list ImageRecord :=
  filter (fun img => has_id (selectedIds st) img && is_real img)
         (allImages st).

Section ExportPaths.

Context {casing : Casing}.

(** [exportAsZip], lines 5350-5376: the archive path of one image. *)
Definition exportAsZip_path (img : ImageRecord) : str :=
  let cat := JS.or (category img) (Str UNCATEGORIZED) in
  let extension := toLowerCase (pop (split DOT (name img))) in
  toString cat ++ SLASH :: removeFileExtension (name img)
           ++ DOT :: extension.

End ExportPaths.

(** [exportAsZip], lines 5380-5388: the array [tagsInfo]. *)
Definition exportAsZip_tagsInfo (selectedImages : list ImageRecord)
  : list (str * list str) :=
  flat_map (fun img =>
              match tags img with
              | Some (t :: ts) => [(name img, t :: ts)]
              | _ => []
              end) selectedImages.

(** [renderCategoriesList], lines 5522-5535: the array
    [allMainCategories] of the management dialog. *)
Definition renderCategoriesList_allMainCategories
  (imgs : list ImageRecord) : list value :=
  let emptyCategoryRecords :=
    map category
        (filter (fun img => truthy (isEmptyCategory img)
                            && startsWith (name img) EMPTY_PREFIX) imgs) in
  let realCategories := map category (filter is_real imgs) in
  let allMainCategories :=
    filter (fun cat => negb (strict_eq cat Undefined)
                       && negb (strict_eq cat (Str []))
                       && negb (strict_eq cat (Str QUANBU))
                       && negb (strict_eq cat (Str OTHER)))
           (dedup (emptyCategoryRecords ++ realCategories)) in
  let allMainCategories :=
    if negb (includes allMainCategories (Str OTHER))
    then allMainCategories ++ [Str OTHER]
    else allMainCategories in
  sort allMainCategories.

(* ================================================================== *)
(** ** Invariants used in the statements *)

(** Every row has a key below the key generator, and no key occurs
    twice. *)
Definition store_wf (s : Store) : Prop :=
  NoDup (map id (rows s))
  /\ Forall (fun r => exists k, id r = Some k /\ (k < nextKey s)%N) (rows s).

(** The snapshot mirrors the store, as after [loadImages]. *)
Definition in_sync (st : State) : Prop := allImages st = rows (db st).

(** No two rows share a name. *)
Definition names_unique (s : Store) : Prop := NoDup (map name (rows s)).

(** A cursor handler that never changes the key of the row it
    updates. *)
Definition keeps_id (step : ImageRecord -> cursor_op) : Prop :=
  forall r v, step r = CursorUpdate v -> id v = id r.

Section Predicates.

Context {casing : Casing}.

(** The test that a record passes to be shown, the three stages of the
    gallery's pipeline taken together. *)
Definition visible_pred (st : State) (img : ImageRecord) : bool :=
  is_real img
  && (if negb (str_eqb (currentFilter st) ALL_FILTER) then
        if str_eqb (currentFilter st) OTHER then other_match img
        else strict_eq (category img) (Str (currentFilter st))
      else true)
  && (if (0 <? length (currentTagFilters st))%nat
      then tags_match (currentTagFilters st) img else true)
  && (if mode_active (currentModeFilter st)
      then hasSuffix (name img) (currentModeFilter st) else true).

End Predicates.

(** What a cursor handler leaves of one row. *)
Definition cursor_result (step : ImageRecord -> cursor_op)
  (r : ImageRecord) : list ImageRecord :=
  match step r with
  | CursorContinue => [r]
  | CursorUpdate v => [v]
  | CursorDelete => []
  end.

(** The page of the compare view is a valid page: the first one, or one
    that still has an image to show. *)
Definition page_in_range (cs : CompareState) : Prop :=
  (0 <= currentPage cs)%Z
  /\ (currentPage cs = 0%Z
      \/ (currentPage cs * IMAGES_PER_PAGE
          < Z.of_nat (length (compareImages cs)))%Z).

(** The records from which the category lists are read: the real ones
    and the sentinels whose name has the marker prefix. *)
Definition reports_category (img : ImageRecord) : Prop :=
  is_real img = true
  \/ (truthy (isEmptyCategory img) = true
      /\ startsWith (name img) EMPTY_PREFIX = true).

(* ================================================================== *)
(** * Properties *)

(** ** Equality tests *)

Lemma str_eqb_eq (a b : str) : str_eqb a b = true <-> a = b.
Proof.
  revert b; induction a as [|x a IH]; intros [|y b]; simpl;
    try (split; (reflexivity || discriminate)).
  rewrite andb_true_iff, N.eqb_eq, IH.
  split; [intros [-> ->]; reflexivity | intros E; inversion E; auto].
Qed.

Lemma str_eqb_refl (a : str) : str_eqb a a = true.
Proof. apply str_eqb_eq; reflexivity. Qed.

Lemma str_eqb_neq (a b : str) : str_eqb a b = false <-> a <> b.
Proof.
  rewrite <- str_eqb_eq. destruct (str_eqb a b); split;
    (congruence || intros; exfalso; auto).
Qed.

Lemma strict_eq_eq (a b : value) : strict_eq a b = true <-> a = b.
Proof.
  destruct a as [| |x|x], b as [| |y|y]; simpl;
    try (split; (reflexivity || discriminate)).
  - rewrite Bool.eqb_true_iff. split; congruence.
  - rewrite str_eqb_eq. split; congruence.
Qed.

(** ** The selection set *)

Module JSSetFacts.
Import JSSet.

Lemma has_app (s1 s2 : t) (k : N) : has (s1 ++ s2) k = has s1 k || has s2 k.
Proof. unfold has; apply existsb_app. Qed.

Lemma has_add (s : t) (k k' : N) :
  has (add s k) k' = has s k' || N.eqb k' k.
Proof.
  unfold add. destruct (has s k) eqn:E.
  - destruct (N.eqb_spec k' k) as [->|_].
    + rewrite E; reflexivity.
    + rewrite orb_false_r; reflexivity.
  - rewrite has_app; simpl. rewrite orb_false_r; reflexivity.
Qed.

Lemma add_present (s : t) (k : N) : has s k = true -> add s k = s.
Proof. unfold add; intros ->; reflexivity. Qed.

Lemma has_delete (s : t) (k k' : N) :
  has (delete s k) k' = has s k' && negb (N.eqb k' k).
Proof.
  unfold has, delete. induction s as [|x s IH]; simpl; [reflexivity|].
  destruct (N.eqb_spec k x) as [->|Hkx]; simpl.
  - rewrite IH. destruct (N.eqb_spec k' x); simpl; [|reflexivity].
    rewrite andb_false_r; reflexivity.
  - rewrite IH. destruct (N.eqb_spec k' x) as [->|]; simpl; [|reflexivity].
    destruct (N.eqb_spec x k); [congruence|reflexivity].
Qed.

Lemma has_empty (k : N) : has empty k = false.
Proof. reflexivity. Qed.

End JSSetFacts.

(** ** The filtering pipeline *)

Lemma Forall_filter_keep {A} (P : A -> Prop) (f : A -> bool) (l : list A) :
  Forall P l -> Forall P (filter f l).
Proof.
  rewrite !Forall_forall. intros H x Hx.
  apply filter_In in Hx. apply H, Hx.
Qed.

Lemma Forall_filter_self {A} (f : A -> bool) (l : list A) :
  Forall (fun x => f x = true) (filter f l).
Proof. apply Forall_forall. intros x Hx. apply filter_In in Hx. apply Hx. Qed.

Lemma real_not_sentinel (img : ImageRecord) :
  is_real img = true ->
  truthy (isEmptyCategory img) = false /\ isEmptyCategory img <> Bool true.
Proof.
  unfold is_real. intros H. apply negb_true_iff in H. split; [exact H|].
  intros E. rewrite E in H. discriminate.
Qed.

(** Peels the conditional stages of a pipeline off a [Forall] goal. *)
Ltac peel_stages :=
  repeat match goal with
    | |- Forall _ (if ?c then _ else _) => destruct c
    | |- Forall _ (filter is_real _) => apply Forall_filter_self
    | |- Forall _ (filter _ _) => apply Forall_filter_keep
    end.

Section FilterFacts.

Context {casing : Casing}.

Lemma renderGallery_filtered_real (st : State) :
  Forall (fun img => is_real img = true) (renderGallery_filtered st).
Proof. unfold renderGallery_filtered; cbv zeta. peel_stages. Qed.

Lemma selectAllVisible_visible_real (st : State) :
  Forall (fun img => is_real img = true) (selectAllVisible_visible st).
Proof. unfold selectAllVisible_visible; cbv zeta. peel_stages. Qed.

(** C1.  Whatever the snapshot, the category filter, the tag filters
    and the mode filter are, no record of the array that [renderGallery]
    displays, and none of the array that [selectAllVisible] selects, is
    a sentinel: its [isEmptyCategory] is falsy, in particular not
    [true]. *)
Theorem visible_excludes_sentinels (st : State) :
  Forall (fun img => truthy (isEmptyCategory img) = false
                     /\ isEmptyCategory img <> Bool true)
         (renderGallery_filtered st)
  /\ Forall (fun img => truthy (isEmptyCategory img) = false
                        /\ isEmptyCategory img <> Bool true)
            (selectAllVisible_visible st).
Proof.
  split.
  - eapply Forall_impl; [|apply renderGallery_filtered_real].
    intros img; apply real_not_sentinel.
  - eapply Forall_impl; [|apply selectAllVisible_visible_real].
    intros img; apply real_not_sentinel.
Qed.

End FilterFacts.

(** ** Mode filter *)

Lemma with_modeFilter_same (st : State) :
  with_modeFilter (currentModeFilter st) st = st.
Proof. destruct st; reflexivity. Qed.

Lemma with_modeFilter_twice (m m' : str) (st : State) :
  with_modeFilter m (with_modeFilter m' st) = with_modeFilter m st.
Proof. reflexivity. Qed.

Lemma toggleModeFilter_DSC (st : State) :
  currentModeFilter st = DSC -> toggleModeFilter st = with_modeFilter TGA st.
Proof. unfold toggleModeFilter. intros ->. reflexivity. Qed.

Lemma toggleModeFilter_TGA (st : State) :
  currentModeFilter st = TGA -> toggleModeFilter st = with_modeFilter ALL st.
Proof. unfold toggleModeFilter. intros ->. reflexivity. Qed.

Lemma toggleModeFilter_ALL (st : State) :
  currentModeFilter st = ALL -> toggleModeFilter st = with_modeFilter DSC st.
Proof. unfold toggleModeFilter. intros ->. reflexivity. Qed.

(** C7.  On the three values of the mode filter the toggle is the cyclic
    successor: it sends DSC to TGA, TGA to ALL and ALL to DSC, it touches
    nothing but the mode filter, and three toggles in a row give back the
    state they started from. *)
Theorem toggleModeFilter_cycle (st : State) :
  In (currentModeFilter st) [DSC; TGA; ALL] ->
  (currentModeFilter st = DSC ->
   currentModeFilter (toggleModeFilter st) = TGA)
  /\ (currentModeFilter st = TGA ->
      currentModeFilter (toggleModeFilter st) = ALL)
  /\ (currentModeFilter st = ALL ->
      currentModeFilter (toggleModeFilter st) = DSC)
  /\ toggleModeFilter st
     = with_modeFilter (currentModeFilter (toggleModeFilter st)) st
  /\ toggleModeFilter (toggleModeFilter (toggleModeFilter st)) = st.
Proof.
  intros Hin.
  repeat split.
  - intros E; rewrite (toggleModeFilter_DSC _ E); reflexivity.
  - intros E; rewrite (toggleModeFilter_TGA _ E); reflexivity.
  - intros E; rewrite (toggleModeFilter_ALL _ E); reflexivity.
  - unfold toggleModeFilter.
    destruct (str_eqb (currentModeFilter st) DSC); [reflexivity|].
    destruct (str_eqb (currentModeFilter st) TGA); reflexivity.
  - simpl in Hin. destruct Hin as [E|[E|[E|[]]]]; symmetry in E.
    + rewrite (toggleModeFilter_DSC _ E).
      rewrite (toggleModeFilter_TGA (with_modeFilter TGA st) eq_refl).
      rewrite (toggleModeFilter_ALL (with_modeFilter ALL _) eq_refl).
      rewrite !with_modeFilter_twice, <- E. apply with_modeFilter_same.
    + rewrite (toggleModeFilter_TGA _ E).
      rewrite (toggleModeFilter_ALL (with_modeFilter ALL st) eq_refl).
      rewrite (toggleModeFilter_DSC (with_modeFilter DSC _) eq_refl).
      rewrite !with_modeFilter_twice, <- E. apply with_modeFilter_same.
    + rewrite (toggleModeFilter_ALL _ E).
      rewrite (toggleModeFilter_DSC (with_modeFilter DSC st) eq_refl).
      rewrite (toggleModeFilter_TGA (with_modeFilter TGA _) eq_refl).
      rewrite !with_modeFilter_twice, <- E. apply with_modeFilter_same.
Qed.

Lemma toggleModeFilter_cycle_witness :
  currentModeFilter (toggleModeFilter (with_modeFilter DSC initial_state))
  = TGA
  /\ toggleModeFilter
       (toggleModeFilter
          (toggleModeFilter (with_modeFilter DSC initial_state)))
     = with_modeFilter DSC initial_state.
Proof.
  pose proof (toggleModeFilter_cycle (with_modeFilter DSC initial_state))
    as H.
  destruct H as (H1 & _ & _ & _ & H5).
  - simpl. left. reflexivity.
  - split; [apply H1; reflexivity | exact H5].
Defined.

(** ** Clearing the selection *)

(** C9.  After [clearSelection] the selection set is empty: no key at
    all is a member, so no record of the snapshot is selected, whether
    or not the active filters show it.  Nothing else of the state
    changes. *)
Theorem clearSelection_empties_all (st : State) :
  selectedIds (clearSelection st) = JSSet.empty
  /\ JSSet.size (selectedIds (clearSelection st)) = 0%nat
  /\ (forall k : N, JSSet.has (selectedIds (clearSelection st)) k = false)
  /\ Forall (fun img => has_id (selectedIds (clearSelection st)) img = false)
            (allImages st)
  /\ clearSelection st = with_selectedIds JSSet.empty st.
Proof.
  repeat split.
  apply Forall_forall. intros img _. unfold has_id.
  destruct (id img); reflexivity.
Qed.

(** ** Selecting everything visible *)

Lemma filter_all_true {A} (f : A -> bool) (l : list A) :
  (forall x, In x l -> f x = true) -> filter f l = l.
Proof.
  induction l as [|x l IH]; simpl; intros H; [reflexivity|].
  rewrite (H x (or_introl eq_refl)). f_equal. apply IH. auto.
Qed.

Lemma existsb_eqb_In (k : N) (l : list N) :
  existsb (N.eqb k) l = true <-> In k l.
Proof.
  rewrite existsb_exists. split.
  - intros (x & Hx & E). apply N.eqb_eq in E. subst. exact Hx.
  - intros H. exists k. split; [exact H | apply N.eqb_refl].
Qed.

Lemma add_ids_has (l : list ImageRecord) (s : JSSet.t) (k : N) :
  JSSet.has (add_ids l s) k = JSSet.has s k || existsb (N.eqb k) (ids_of l).
Proof.
  unfold add_ids. revert s.
  induction l as [|img l IH]; intros s; simpl.
  - rewrite orb_false_r; reflexivity.
  - rewrite IH. destruct (id img) as [k0|]; simpl; [|reflexivity].
    rewrite JSSetFacts.has_add, orb_assoc. reflexivity.
Qed.

Lemma add_ids_fixed (l : list ImageRecord) (s : JSSet.t) :
  (forall k, In k (ids_of l) -> JSSet.has s k = true) -> add_ids l s = s.
Proof.
  unfold add_ids. induction l as [|img l IH]; simpl; intros H; [reflexivity|].
  destruct (id img) as [k0|] eqn:E; simpl in H.
  - rewrite JSSetFacts.add_present by (apply H; left; reflexivity).
    apply IH. intros k Hk. apply H. right. exact Hk.
  - apply IH. exact H.
Qed.

Section SelectFacts.

Context {casing : Casing}.

Lemma selectAllVisible_visible_sel (s : JSSet.t) (st : State) :
  selectAllVisible_visible (with_selectedIds s st)
  = selectAllVisible_visible st.
Proof. reflexivity. Qed.

Lemma with_selectedIds_twice (s s' : JSSet.t) (st : State) :
  with_selectedIds s (with_selectedIds s' st) = with_selectedIds s st.
Proof. reflexivity. Qed.

(** C8.  [selectAllVisible] leaves the visible array as it was and makes
    the selection the union of the old selection and the keys of the
    visible records: the visible keys that are selected afterwards are
    all the visible keys, every key selected before is still selected
    (in or out of the visible array), and a second call changes
    nothing. *)
Theorem selectAllVisible_union_idempotent (st : State) :
  selectAllVisible_visible (selectAllVisible st)
  = selectAllVisible_visible st
  /\ filter (JSSet.has (selectedIds (selectAllVisible st)))
            (ids_of (selectAllVisible_visible (selectAllVisible st)))
     = ids_of (selectAllVisible_visible (selectAllVisible st))
  /\ Forall (fun k => JSSet.has (selectedIds (selectAllVisible st)) k = true)
            (selectedIds st)
  /\ (forall k : N,
         JSSet.has (selectedIds (selectAllVisible st)) k
         = JSSet.has (selectedIds st) k
           || existsb (N.eqb k) (ids_of (selectAllVisible_visible st)))
  /\ selectAllVisible (selectAllVisible st) = selectAllVisible st.
Proof.
  assert (Hhas : forall k : N,
             JSSet.has (selectedIds (selectAllVisible st)) k
             = JSSet.has (selectedIds st) k
               || existsb (N.eqb k) (ids_of (selectAllVisible_visible st))).
  { intros k. unfold selectAllVisible; simpl. apply add_ids_has. }
  split; [reflexivity|].
  split.
  { apply filter_all_true. intros k Hk. rewrite Hhas.
    apply orb_true_iff. right. apply existsb_eqb_In. exact Hk. }
  split.
  { apply Forall_forall. intros k Hk. rewrite Hhas.
    apply orb_true_iff. left. apply existsb_eqb_In. exact Hk. }
  split; [exact Hhas|].
  unfold selectAllVisible at 1.
  change (selectAllVisible_visible (selectAllVisible st))
    with (selectAllVisible_visible st).
  rewrite add_ids_fixed.
  - unfold selectAllVisible. apply with_selectedIds_twice.
  - intros k Hk. rewrite Hhas.
    apply orb_true_iff. right. apply existsb_eqb_In. exact Hk.
Qed.

End SelectFacts.

(** ** The select-all toggle and the tag filters *)

Lemma filter_comm {A} (f g : A -> bool) (l : list A) :
  filter f (filter g l) = filter g (filter f l).
Proof.
  induction l as [|x l IH]; simpl; [reflexivity|].
  destruct (f x) eqn:Ef, (g x) eqn:Eg; simpl;
    rewrite ?Ef, ?Eg, IH; reflexivity.
Qed.

Lemma remove_ids_has (l : list ImageRecord) (s : JSSet.t) (k : N) :
  JSSet.has (remove_ids l s) k
  = JSSet.has s k && negb (existsb (N.eqb k) (ids_of l)).
Proof.
  unfold remove_ids. revert s.
  induction l as [|img l IH]; intros s; simpl.
  - rewrite andb_true_r; reflexivity.
  - rewrite IH. destruct (id img) as [k0|]; simpl; [|reflexivity].
    rewrite negb_orb, andb_assoc. f_equal.
    destruct (JSSet.has s k0) eqn:E.
    + apply JSSetFacts.has_delete.
    + destruct (N.eqb_spec k k0) as [->|_]; simpl.
      * rewrite E; reflexivity.
      * rewrite andb_true_r; reflexivity.
Qed.

Lemma insert_ids_has (l : list ImageRecord) (s : JSSet.t) (k : N) :
  JSSet.has (insert_ids l s) k
  = JSSet.has s k || existsb (N.eqb k) (ids_of l).
Proof.
  unfold insert_ids. revert s.
  induction l as [|img l IH]; intros s; simpl.
  - rewrite orb_false_r; reflexivity.
  - rewrite IH. destruct (id img) as [k0|]; simpl; [|reflexivity].
    rewrite orb_assoc. f_equal.
    destruct (JSSet.has s k0) eqn:E; simpl.
    + destruct (N.eqb_spec k k0) as [->|_]; simpl.
      * rewrite E; reflexivity.
      * rewrite orb_false_r; reflexivity.
    + apply JSSetFacts.has_add.
Qed.

Section ToggleFacts.

Context {casing : Casing}.

Lemma mode_stage_filter (st : State) (f : ImageRecord -> bool)
  (l : list ImageRecord) :
  mode_stage st (filter f l) = filter f (mode_stage st l).
Proof.
  unfold mode_stage. destruct (mode_active (currentModeFilter st));
    [apply filter_comm | reflexivity].
Qed.

Lemma tag_filters_active (st : State) :
  currentTagFilters st <> [] ->
  (0 <? length (currentTagFilters st))%nat = true.
Proof. destruct (currentTagFilters st); [congruence | reflexivity]. Qed.

(** C10.  With the category filter at ['all'] and at least one tag
    filter, the array [visible] of [toggleSelectAll] is the real
    records that pass the mode filter, whatever their tags: every such
    record of the snapshot is in it.  The arrays of [renderGallery] and
    [selectAllVisible] are its sub-array of records carrying all filter
    tags, so a record of it that lacks a filter tag is in neither.
    The toggle then selects, or deselects, the key of every record of
    its array, tagged or not. *)
Theorem toggleSelectAll_ignores_tags_under_all (st : State) :
  currentFilter st = ALL_FILTER ->
  currentTagFilters st <> [] ->
  toggleSelectAll_visible st = mode_stage st (filter is_real (allImages st))
  /\ (forall img, In img (allImages st) -> is_real img = true ->
                  In img (mode_stage st [img]) ->
                  In img (toggleSelectAll_visible st))
  /\ selectAllVisible_visible st
     = filter (tags_match (currentTagFilters st)) (toggleSelectAll_visible st)
  /\ renderGallery_filtered st
     = filter (tags_match (currentTagFilters st)) (toggleSelectAll_visible st)
  /\ Forall (fun img => tags_match (currentTagFilters st) img = false ->
                        ~ In img (selectAllVisible_visible st)
                        /\ ~ In img (renderGallery_filtered st))
            (toggleSelectAll_visible st)
  /\ Forall (fun k => JSSet.has (selectedIds (toggleSelectAll st)) k
                      = negb (toggleSelectAll_all_selected st))
            (ids_of (toggleSelectAll_visible st)).
Proof.
  intros Hall Htags.
  assert (Ht : toggleSelectAll_visible st
               = mode_stage st (filter is_real (allImages st))).
  { unfold toggleSelectAll_visible, mode_stage; cbv zeta.
    rewrite Hall. reflexivity. }
  assert (Hs : selectAllVisible_visible st
               = filter (tags_match (currentTagFilters st))
                        (toggleSelectAll_visible st)).
  { rewrite Ht, <- mode_stage_filter.
    unfold selectAllVisible_visible, mode_stage; cbv zeta.
    rewrite Hall, (tag_filters_active _ Htags). reflexivity. }
  assert (Hg : renderGallery_filtered st = selectAllVisible_visible st)
    by reflexivity.
  split; [exact Ht|].
  split.
  { intros img Hin Hreal Hmode. rewrite Ht.
    unfold mode_stage in *.
    destruct (mode_active (currentModeFilter st)).
    - simpl in Hmode.
      destruct (hasSuffix (name img) (currentModeFilter st)) eqn:E;
        [|destruct Hmode].
      apply filter_In. split; [|exact E].
      apply filter_In. split; assumption.
    - apply filter_In. split; assumption. }
  split; [exact Hs|].
  split; [rewrite Hg; exact Hs|].
  split.
  { apply Forall_forall. intros img _ Hno.
    rewrite Hg, Hs. split; intros Hin; apply filter_In in Hin;
      destruct Hin as [_ Hyes]; congruence. }
  apply Forall_forall. intros k Hk.
  apply existsb_eqb_In in Hk.
  unfold toggleSelectAll.
  destruct (toggleSelectAll_all_selected st); simpl.
  - rewrite remove_ids_has, Hk. apply andb_false_r.
  - rewrite insert_ids_has, Hk. apply orb_true_r.
Qed.

End ToggleFacts.

(** ** Deleting a category *)

Lemma strict_eq_Str_false (c : value) (nm : str) :
  strict_eq c (Str nm) = false <-> c <> Str nm.
Proof.
  rewrite <- strict_eq_eq. destruct (strict_eq c (Str nm)); split;
    (congruence || intros; exfalso; auto).
Qed.

Lemma deleteCategory_rows (nm : str) (st : State) :
  rows (db (deleteCategory nm st))
  = openCursor (deleteCategory_step nm) (rows (db st)).
Proof. reflexivity. Qed.

Lemma deleteCategory_scan (nm : str) (rs : list ImageRecord) :
  openCursor (deleteCategory_step nm) rs
  = flat_map (deleteCategory_row nm) rs.
Proof.
  induction rs as [|r rs IH]; simpl; [reflexivity|].
  rewrite <- IH.
  generalize (openCursor (deleteCategory_step nm) rs); intros rest.
  unfold deleteCategory_step, deleteCategory_row, is_real.
  destruct (strict_eq (category r) (Str nm)); simpl; [|reflexivity].
  destruct (truthy (isEmptyCategory r)); reflexivity.
Qed.

Lemma is_real_set_category (c : value) (r : ImageRecord) :
  is_real (set_category c r) = is_real r.
Proof. reflexivity. Qed.

Lemma deleteCategory_scan_real (nm : str) (rs : list ImageRecord) :
  filter is_real (openCursor (deleteCategory_step nm) rs)
  = map (fun r => if strict_eq (category r) (Str nm)
                  then set_category Null r else r)
        (filter is_real rs).
Proof.
  rewrite deleteCategory_scan.
  induction rs as [|r rs IH]; simpl; [reflexivity|].
  rewrite filter_app, IH. unfold deleteCategory_row.
  destruct (is_real r) eqn:Er; simpl;
    destruct (strict_eq (category r) (Str nm)) eqn:Ec; simpl;
    rewrite ?is_real_set_category, ?Er; reflexivity.
Qed.

Lemma deleteCategory_scan_sentinel (nm : str) (rs : list ImageRecord) :
  filter (fun r => negb (is_real r)) (openCursor (deleteCategory_step nm) rs)
  = filter (fun r => negb (strict_eq (category r) (Str nm)))
           (filter (fun r => negb (is_real r)) rs).
Proof.
  rewrite deleteCategory_scan.
  induction rs as [|r rs IH]; simpl; [reflexivity|].
  rewrite filter_app, IH. unfold deleteCategory_row.
  destruct (is_real r) eqn:Er; simpl;
    destruct (strict_eq (category r) (Str nm)) eqn:Ec; simpl;
    rewrite ?is_real_set_category, ?Er; simpl; rewrite ?Ec; reflexivity.
Qed.

(** C5.  [deleteCategory(A)] rewrites the store row by row and reloads
    the snapshot from it.  Every real record stays, with its key, and
    its category becomes [null] exactly when it was [A]; every sentinel
    whose category was [A] is gone and the other sentinels are as they
    were; every record of another category is still there unchanged; no
    row reports [A] afterwards. *)
Theorem deleteCategory_cascade (A : str) (st : State) :
  allImages (deleteCategory A st) = rows (db (deleteCategory A st))
  /\ filter is_real (rows (db (deleteCategory A st)))
     = map (fun r => if strict_eq (category r) (Str A)
                     then set_category Null r else r)
           (filter is_real (rows (db st)))
  /\ map id (filter is_real (rows (db (deleteCategory A st))))
     = map id (filter is_real (rows (db st)))
  /\ filter (fun r => negb (is_real r)) (rows (db (deleteCategory A st)))
     = filter (fun r => negb (strict_eq (category r) (Str A)))
              (filter (fun r => negb (is_real r)) (rows (db st)))
  /\ Forall (fun r => is_real r = true -> category r = Str A ->
                      In (set_category Null r)
                         (rows (db (deleteCategory A st))))
            (rows (db st))
  /\ Forall (fun r => category r <> Str A ->
                      In r (rows (db (deleteCategory A st))))
            (rows (db st))
  /\ Forall (fun r => category r <> Str A)
            (rows (db (deleteCategory A st)))
  /\ Forall (fun r => is_real r = false -> In r (rows (db st)))
            (rows (db (deleteCategory A st))).
Proof.
  rewrite deleteCategory_rows.
  split; [reflexivity|].
  split; [apply deleteCategory_scan_real|].
  split.
  { rewrite deleteCategory_scan_real, map_map. apply map_ext.
    intros r. destruct (strict_eq (category r) (Str A)); reflexivity. }
  split; [apply deleteCategory_scan_sentinel|].
  rewrite deleteCategory_scan.
  repeat split; apply Forall_forall.
  - intros r Hin Hreal Hcat. apply in_flat_map. exists r. split; [exact Hin|].
    unfold deleteCategory_row.
    rewrite (proj2 (strict_eq_eq _ _) Hcat), Hreal. left; reflexivity.
  - intros r Hin Hcat. apply in_flat_map. exists r. split; [exact Hin|].
    unfold deleteCategory_row.
    rewrite (proj2 (strict_eq_Str_false _ _) Hcat). left; reflexivity.
  - intros r Hin. apply in_flat_map in Hin. destruct Hin as (r0 & _ & Hr).
    unfold deleteCategory_row in Hr.
    destruct (strict_eq (category r0) (Str A)) eqn:Ec.
    + destruct (is_real r0); [|destruct Hr].
      destruct Hr as [<-|[]]. simpl. discriminate.
    + destruct Hr as [<-|[]]. apply strict_eq_Str_false. exact Ec.
  - intros r Hin Hsent. apply in_flat_map in Hin.
    destruct Hin as (r0 & Hin0 & Hr).
    unfold deleteCategory_row in Hr.
    destruct (strict_eq (category r0) (Str A)).
    + destruct (is_real r0) eqn:Er; [|destruct Hr].
      destruct Hr as [<-|[]]. unfold is_real in *; simpl in Hsent. congruence.
    + destruct Hr as [<-|[]]. exact Hin0.
Qed.

(** ** The duplicate-name check *)

(** C2, as the code has it.  [checkDuplicateImage] returns [true]
    exactly when some record of the snapshot, sentinel or real, has that
    name. *)
Theorem checkDuplicateImage_any_record (imgs : list ImageRecord)
  (fileName : str) :
  checkDuplicateImage imgs fileName = true
  <-> exists img, In img imgs /\ name img = fileName.
Proof.
  unfold checkDuplicateImage. rewrite existsb_exists.
  split; intros (img & Hin & E); exists img; split; try exact Hin;
    apply str_eqb_eq; exact E.
Qed.

(** C2 fails as stated: with the sentinel of category [A] as the only
    record, the check answers [true] for the sentinel's name although no
    real record has it. *)
Lemma checkDuplicateImage_sentinel_counterexample :
  ~ (checkDuplicateImage [sentinel_record 1 (lit "A")]
                         (EMPTY_PREFIX ++ lit "A") = true
     <-> exists img,
           In img [sentinel_record 1 (lit "A")]
           /\ isEmptyCategory img <> Bool true
           /\ name img = EMPTY_PREFIX ++ lit "A").
Proof.
  intros [H _].
  destruct (H eq_refl) as (img & [<-|[]] & Hflag & _).
  apply Hflag. reflexivity.
Qed.

(** [saveImage] takes the update path or skips whenever the check
    answers [true], and inserts otherwise. *)
Lemma saveImage_fresh (confirm : str -> bool) (now : str) (file : File)
  (cat : str) (st : State) :
  checkDuplicateImage (allImages st) (file_name file) = false ->
  rows (db (saveImage confirm now file cat st))
  = rows (db st)
    ++ [{| id := Some (nextKey (db st)); name := file_name file;
           category := JS.or (Str cat) (Str []); tags := Some [];
           data := file_dataURL file; date := now;
           isEmptyCategory := Undefined |}].
Proof. unfold saveImage. intros ->. reflexivity. Qed.

Lemma saveImage_declined (confirm : str -> bool) (now : str) (file : File)
  (cat : str) (st : State) :
  checkDuplicateImage (allImages st) (file_name file) = true ->
  confirm (file_name file) = false ->
  saveImage confirm now file cat st = st.
Proof. unfold saveImage. intros -> ->. reflexivity. Qed.

(** ** Paths of archive entries *)

Lemma split_nonempty (sep : N) (s : str) : split sep s <> [].
Proof.
  destruct s as [|c s]; simpl; [discriminate|].
  destruct (N.eqb c sep); [discriminate|].
  destruct (split sep s); discriminate.
Qed.

Lemma split_no_sep (sep : N) (s : str) : ~ In sep s -> split sep s = [s].
Proof.
  induction s as [|c s IH]; simpl; intros H; [reflexivity|].
  destruct (N.eqb_spec c sep) as [E|_].
  - exfalso. apply H. left. exact E.
  - rewrite IH; [reflexivity|]. intros Hin. apply H. right. exact Hin.
Qed.

Lemma split_at_first (sep : N) (seg rest : str) :
  ~ In sep seg -> split sep (seg ++ sep :: rest) = seg :: split sep rest.
Proof.
  induction seg as [|c seg IH]; simpl; intros H.
  - rewrite N.eqb_refl. reflexivity.
  - destruct (N.eqb_spec c sep) as [E|_].
    + exfalso. apply H. left. exact E.
    + rewrite IH; [reflexivity|]. intros Hin. apply H. right. exact Hin.
Qed.

Lemma join_split (sep : N) (s : str) : join sep (split sep s) = s.
Proof.
  induction s as [|c s IH]; [reflexivity|].
  simpl split. pose proof (split_nonempty sep s) as Hne.
  destruct (split sep s) as [|p ps]; [congruence|].
  destruct (N.eqb_spec c sep) as [->|_].
  - simpl. simpl in IH. rewrite IH. reflexivity.
  - destruct ps as [|q ps]; simpl in *; rewrite IH; reflexivity.
Qed.

Lemma handleZipFile_split_flat (filename : str) :
  ~ In SLASH filename -> handleZipFile_split filename = ([], filename).
Proof.
  intros H. unfold handleZipFile_split. rewrite split_no_sep by exact H.
  reflexivity.
Qed.

Lemma handleZipFile_split_folder (seg rest : str) :
  ~ In SLASH seg ->
  handleZipFile_split (seg ++ SLASH :: rest) = (seg, rest).
Proof.
  intros H. unfold handleZipFile_split. rewrite split_at_first by exact H.
  pose proof (split_nonempty SLASH rest) as Hne.
  pose proof (join_split SLASH rest) as Hj.
  destruct (split SLASH rest) as [|p ps]; [congruence|].
  cbn [length Nat.ltb Nat.leb hd tl]. rewrite Hj. reflexivity.
Qed.

Lemma find_name_none (imgs : list ImageRecord) (nm : str) :
  checkDuplicateImage imgs nm = false ->
  find (fun img => str_eqb (name img) nm) imgs = None.
Proof.
  unfold checkDuplicateImage.
  induction imgs as [|img imgs IH]; simpl; [reflexivity|].
  destruct (str_eqb (name img) nm); simpl; [discriminate | exact IH].
Qed.

Section ImportFacts.

Context {casing : Casing}.

(** C3, as the code has it.  An entry that is a file other than
    [tags.json], has an allowed extension and a name not yet in the
    snapshot, is stored as one new row.  When its path has no [/], the
    row's name is the path and its category is the string ['all'].
    When the path is [seg/rest], the name is [rest] and the category
    is [seg], or ['all'] when [seg] is empty. *)
Theorem handleZipFile_entry_category (overwrite : bool)
  (confirm : str -> bool) (now filename : str) (zipEntry : ZipEntry)
  (st : State) (n : ImportCounts) :
  entry_dir zipEntry = false ->
  filename <> lit "tags.json" ->
  includes_str IMAGE_EXTS
    (toLowerCase (pop (split DOT (snd (handleZipFile_split filename)))))
  = true ->
  checkDuplicateImage (allImages st) (snd (handleZipFile_split filename))
  = false ->
  exists r,
    rows (db (fst (handleZipFile_entry overwrite confirm now filename
                                       zipEntry (st, n))))
    = rows (db st) ++ [r]
    /\ id r = Some (nextKey (db st))
    /\ tags r = Some []
    /\ isEmptyCategory r = Undefined
    /\ (~ In SLASH filename ->
        name r = filename /\ category r = Str ALL_FILTER)
    /\ (forall seg rest,
           filename = seg ++ SLASH :: rest -> ~ In SLASH seg ->
           name r = rest
           /\ category r
              = Str (match seg with [] => ALL_FILTER | _ => seg end)).
Proof.
  intros Hdir Htags Hext Hfresh.
  unfold handleZipFile_entry.
  rewrite Hdir. apply str_eqb_neq in Htags. rewrite Htags. cbn [orb].
  destruct (handleZipFile_split filename) as [cat actual] eqn:Esplit.
  cbn [snd] in Hext, Hfresh.
  rewrite Hext, find_name_none by exact Hfresh. cbn [andb fst].
  rewrite saveImage_fresh by exact Hfresh.
  eexists. split; [reflexivity|].
  cbn [id tags isEmptyCategory name category file_name].
  split; [reflexivity|]. split; [reflexivity|]. split; [reflexivity|].
  split.
  - intros Hflat.
    rewrite handleZipFile_split_flat in Esplit by exact Hflat.
    inversion Esplit; subst. split; reflexivity.
  - intros seg rest -> Hseg.
    rewrite handleZipFile_split_folder in Esplit by exact Hseg.
    inversion Esplit; subst. split; [reflexivity|].
    destruct cat; reflexivity.
Qed.

End ImportFacts.

(** C3 fails as stated: the entry [c.png], imported into the empty
    repository, is stored with the category ['all'], which is a
    non-empty string. *)
Lemma handleZipFile_entry_flat_counterexample :
  ~ In SLASH (lit "c.png")
  /\ exists r,
       rows (db (fst (handleZipFile_entry
                        (casing := ascii_casing) false (fun _ => false)
                        SAMPLE_DATE (lit "c.png")
                        {| entry_dir := false; entry_base64 := lit "QUJD" |}
                        (initial_state, no_counts))))
       = [r]
       /\ category r = Str (lit "all")
       /\ truthy (category r) = true
       /\ category r <> Str []
       /\ category r <> Null
       /\ category r <> Undefined.
Proof.
  split.
  - intros H. cbv in H. repeat (destruct H as [H|H]; [discriminate|]).
    exact H.
  - eexists. split; [vm_compute; reflexivity|].
    repeat split; discriminate.
Qed.

Lemma handleZipFile_entry_category_witness :
  exists r,
    rows (db (fst (handleZipFile_entry
                     (casing := ascii_casing) false (fun _ => false)
                     SAMPLE_DATE (lit "Lab/x_DSC.JPG")
                     {| entry_dir := false; entry_base64 := lit "QUJD" |}
                     (initial_state, no_counts))))
    = rows (db initial_state) ++ [r]
    /\ id r = Some (nextKey (db initial_state))
    /\ tags r = Some []
    /\ isEmptyCategory r = Undefined
    /\ (~ In SLASH (lit "Lab/x_DSC.JPG") ->
        name r = lit "Lab/x_DSC.JPG" /\ category r = Str ALL_FILTER)
    /\ (forall seg rest,
           lit "Lab/x_DSC.JPG" = seg ++ SLASH :: rest -> ~ In SLASH seg ->
           name r = rest
           /\ category r
              = Str (match seg with [] => ALL_FILTER | _ => seg end)).
Proof.
  apply (handleZipFile_entry_category
           (casing := ascii_casing) false (fun _ => false)
           SAMPLE_DATE (filename := lit "Lab/x_DSC.JPG")
           {| entry_dir := false; entry_base64 := lit "QUJD" |}
           initial_state no_counts).
  - reflexivity.
  - discriminate.
  - reflexivity.
  - reflexivity.
Defined.

(** ** The category list *)

(** C4 on a snapshot whose only record is a real image of category
    ['测试']: the list is ['其他'; '测试'], so ['其他'] comes first and
    the last element is ['测试'].  The default [sort] runs after the
    [push] and orders by code units, and U+5176 is below U+6D4B. *)
Theorem renderCategories_other_not_last :
  renderCategories_allCategories
    [real_record 1 (lit "a.png") (Str CESHI) []]
  = [Str OTHER; Str CESHI]
  /\ last (renderCategories_allCategories
             [real_record 1 (lit "a.png") (Str CESHI) []]) Undefined
     <> Str OTHER.
Proof. split; [reflexivity | vm_compute; discriminate]. Qed.

(** ** Renaming a category *)

Lemma renameCategory_step_unfold (oldName newName : str) (r : ImageRecord) :
  renameCategory_step oldName newName r
  = if strict_eq (category r) (Str oldName)
    then CursorUpdate (set_category (Str newName) r)
    else CursorContinue.
Proof.
  unfold renameCategory_step.
  destruct (strict_eq (category r) (Str oldName)); [reflexivity|].
  rewrite andb_false_r. reflexivity.
Qed.

(** A rejected rename leaves the whole state as it was. *)
Lemma renameCategory_rejected (oldName newName : str) (st : State) :
  newName = QUANBU \/ newName = OTHER
  \/ includes (existingCategories (allImages st)) (Str newName) = true ->
  fst (renameCategory oldName newName st) <> Succeeded
  /\ snd (renameCategory oldName newName st) = st.
Proof.
  unfold renameCategory. intros [->|[->|H]].
  - split; [discriminate | reflexivity].
  - split; [discriminate | reflexivity].
  - destruct (str_eqb newName QUANBU || str_eqb newName OTHER);
      [split; [discriminate | reflexivity]|].
    rewrite H. split; [discriminate | reflexivity].
Qed.

(** An accepted rename rewrites the category of the rows of the old
    category and of no other row. *)
Lemma renameCategory_categories (oldName newName : str) (st : State) :
  fst (renameCategory oldName newName st) = Succeeded ->
  rows (db (snd (renameCategory oldName newName st)))
  = map (fun r => if strict_eq (category r) (Str oldName)
                  then set_category (Str newName) r else r)
        (rows (db st)).
Proof.
  unfold renameCategory.
  destruct (str_eqb newName QUANBU || str_eqb newName OTHER);
    [discriminate|].
  destruct (includes (existingCategories (allImages st)) (Str newName));
    [discriminate|].
  intros _. cbn [snd db loadImages with_db with_rows rows].
  induction (rows (db st)) as [|r rs IH]; simpl; [reflexivity|].
  rewrite renameCategory_step_unfold.
  destruct (strict_eq (category r) (Str oldName)); rewrite IH; reflexivity.
Qed.

(** No rename changes the name of any row. *)
Lemma renameCategory_names_kept (oldName newName : str) (st : State) :
  map name (rows (db (snd (renameCategory oldName newName st))))
  = map name (rows (db st)).
Proof.
  destruct (fst (renameCategory oldName newName st)) eqn:E.
  1,2: unfold renameCategory in *;
    destruct (str_eqb newName QUANBU || str_eqb newName OTHER);
    [reflexivity|];
    destruct (includes (existingCategories (allImages st)) (Str newName));
    [reflexivity | discriminate].
  rewrite renameCategory_categories by exact E.
  rewrite map_map. apply map_ext. intros r.
  destruct (strict_eq (category r) (Str oldName)); reflexivity.
Qed.

(** C6 on the repository that holds the sentinel of category [A] only,
    as [addCategory("A")] leaves it: renaming [A] to [B] succeeds and
    rewrites the sentinel's category to [B], but its name stays
    [__EMPTY_IMAGE__A]; the branch that rebuilds the name comes after a
    test that already takes every row of the old category. *)
Theorem renameCategory_sentinel_name_stale :
  rows (db (snd (addCategory SAMPLE_DATE (lit "A") initial_state)))
  = [sentinel_record 1 (lit "A")]
  /\ fst (renameCategory (lit "A") (lit "B")
            (snd (addCategory SAMPLE_DATE (lit "A") initial_state)))
     = Succeeded
  /\ rows (db (snd (renameCategory (lit "A") (lit "B")
                      (snd (addCategory SAMPLE_DATE (lit "A")
                                        initial_state)))))
     = [{| id := Some 1%N; name := EMPTY_PREFIX ++ lit "A";
           category := Str (lit "B"); tags := Some []; data := [];
           date := SAMPLE_DATE; isEmptyCategory := Bool true |}]
  /\ EMPTY_PREFIX ++ lit "A" <> EMPTY_PREFIX ++ lit "B".
Proof. repeat split. vm_compute. discriminate. Qed.

(** ** The toggle on a tagged and an untagged image *)

Lemma toggleSelectAll_ignores_tags_witness :
  selectedIds (toggleSelectAll (casing := ascii_casing) tagged_state)
  = [1%N; 2%N]
  /\ selectedIds (selectAllVisible (casing := ascii_casing) tagged_state)
     = [1%N]
  /\ map id (renderGallery_filtered (casing := ascii_casing) tagged_state)
     = [Some 1%N]
  /\ Forall (fun k =>
               JSSet.has (selectedIds
                            (toggleSelectAll (casing := ascii_casing)
                                             tagged_state)) k
               = negb (toggleSelectAll_all_selected
                         (casing := ascii_casing) tagged_state))
            (ids_of (toggleSelectAll_visible (casing := ascii_casing)
                                             tagged_state)).
Proof.
  pose proof (toggleSelectAll_ignores_tags_under_all
                (casing := ascii_casing) tagged_state) as H.
  destruct H as (_ & _ & _ & _ & _ & H).
  - reflexivity.
  - discriminate.
  - repeat split; exact H.
Defined.

(** ** Members of the category list *)

Lemma includes_In (arr : list value) (x : value) :
  includes arr x = true <-> In x arr.
Proof.
  unfold includes. rewrite existsb_exists. split.
  - intros (y & Hy & E). apply strict_eq_eq in E. subst. exact Hy.
  - intros H. exists x. split; [exact H | apply strict_eq_eq; reflexivity].
Qed.

Lemma dedup_from_In (seen arr : list value) (x : value) :
  In x (dedup_from seen arr) <-> In x arr /\ ~ In x seen.
Proof.
  revert seen. induction arr as [|a arr IH]; intros seen; simpl.
  - tauto.
  - destruct (includes seen a) eqn:E.
    + apply includes_In in E. rewrite IH. split.
      * intros [H1 H2]. auto.
      * intros [[->|H1] H2]; [contradiction | auto].
    + assert (Ha : ~ In a seen).
      { intros H. apply includes_In in H. congruence. }
      simpl. rewrite IH. simpl. split.
      * intros [->|[H1 H2]]; [auto|]. split; [auto|]. intros H. apply H2. auto.
      * intros [[->|H1] H2]; [auto|].
        destruct (strict_eq a x) eqn:Eax.
        -- apply strict_eq_eq in Eax. auto.
        -- right. split; [exact H1|]. intros [->|H]; [|contradiction].
           rewrite (proj2 (strict_eq_eq x x) eq_refl) in Eax. discriminate.
Qed.

Lemma dedup_In (arr : list value) (x : value) : In x (dedup arr) <-> In x arr.
Proof. unfold dedup. rewrite dedup_from_In. simpl. tauto. Qed.

Lemma sort_insert_In (x y : value) (l : list value) :
  In y (sort_insert x l) <-> x = y \/ In y l.
Proof.
  induction l as [|z l IH]; simpl; [tauto|].
  destruct (str_leb (toString x) (toString z)); simpl; [tauto|].
  rewrite IH. tauto.
Qed.

Lemma sort_In (arr : list value) (x : value) : In x (sort arr) <-> In x arr.
Proof.
  unfold sort. rewrite in_app_iff.
  assert (H : forall m, In x (fold_right sort_insert [] m) <-> In x m).
  { induction m as [|a m IH]; simpl; [tauto|].
    rewrite sort_insert_In, IH. tauto. }
  rewrite H, !filter_In.
  destruct (is_undefined x); simpl; split; intros; intuition congruence.
Qed.

(** The part of C4 that the code keeps: the list holds ['其他'] and,
    besides it, exactly the categories other than [undefined], [''],
    ['all'] and ['全部'] that a real record or a sentinel with the
    marker prefix reports. *)
Lemma renderCategories_members (imgs : list ImageRecord) (c : value) :
  In c (renderCategories_allCategories imgs)
  <-> c = Str OTHER
      \/ (c <> Undefined /\ c <> Str [] /\ c <> Str ALL_FILTER
          /\ c <> Str QUANBU
          /\ exists img,
               In img imgs /\ category img = c
               /\ (is_real img = true
                   \/ (truthy (isEmptyCategory img) = true
                       /\ startsWith (name img) EMPTY_PREFIX = true))).
Proof.
  unfold renderCategories_allCategories; cbv zeta.
  rewrite sort_In.
  set (cats := filter _ (dedup _)).
  assert (Hc : In c cats
               <-> c <> Undefined /\ c <> Str [] /\ c <> Str ALL_FILTER
                   /\ c <> Str QUANBU
                   /\ exists img,
                        In img imgs /\ category img = c
                        /\ (is_real img = true
                            \/ (truthy (isEmptyCategory img) = true
                                /\ startsWith (name img) EMPTY_PREFIX
                                   = true))).
  { unfold cats. rewrite filter_In, dedup_In, in_app_iff, !in_map_iff.
    rewrite !andb_true_iff, !negb_true_iff.
    assert (Hne : forall v, strict_eq c v = false <-> c <> v).
    { intros v. rewrite <- strict_eq_eq.
      destruct (strict_eq c v); split;
        (congruence || intros; exfalso; auto). }
    rewrite !Hne. split.
    - intros [Hsrc (((H1 & H2) & H3) & H4)].
      repeat (split; [assumption|]).
      destruct Hsrc as [(img & E & Hin)|(img & E & Hin)];
        apply filter_In in Hin; destruct Hin as [Hin Hp]; exists img.
      + apply andb_true_iff in Hp. auto.
      + auto.
    - intros (H1 & H2 & H3 & H4 & img & Hin & E & Hp).
      split; [|auto].
      destruct Hp as [Hp|Hp].
      + right. exists img. split; [exact E|]. apply filter_In. auto.
      + left. exists img. split; [exact E|]. apply filter_In.
        split; [exact Hin|]. apply andb_true_iff. exact Hp. }
  destruct (includes cats (Str OTHER)) eqn:Ei; simpl.
  - apply includes_In in Ei. rewrite Hc. split; [tauto|].
    intros [->|H]; [apply Hc; exact Ei | exact H].
  - rewrite in_app_iff, Hc. simpl. split.
    + intros [H|[<-|[]]]; auto.
    + intros [->|H]; auto.
Qed.

(* ================================================================== *)
(** * Further properties *)

(** ** File names *)

Lemma span_ext_app (r : str) :
  fst (span_ext r) ++ snd (span_ext r) = r.
Proof.
  induction r as [|c r IH]; simpl; [reflexivity|].
  destruct (N.eqb c SLASH || N.eqb c DOT); [reflexivity|].
  destruct (span_ext r) as [e rest]. simpl in *. rewrite IH. reflexivity.
Qed.

Lemma span_ext_stop (r : str) :
  match snd (span_ext r) with
  | [] => True
  | c :: _ => c = SLASH \/ c = DOT
  end.
Proof.
  induction r as [|c r IH]; simpl; [exact I|].
  destruct (N.eqb c SLASH || N.eqb c DOT) eqn:E; simpl.
  - apply orb_true_iff in E. rewrite !N.eqb_eq in E. exact E.
  - destruct (span_ext r) as [e rest]. exact IH.
Qed.

Lemma span_ext_plain (e rest : str) (c : N) :
  Forall (fun x => x <> SLASH /\ x <> DOT) e ->
  c = SLASH \/ c = DOT ->
  span_ext (e ++ c :: rest) = (e, c :: rest).
Proof.
  intros He Hc. induction He as [|x e [Hx1 Hx2] _ IH]; simpl.
  - destruct Hc as [->| ->]; reflexivity.
  - destruct (N.eqb_spec x SLASH) as [|_]; [contradiction|].
    destruct (N.eqb_spec x DOT) as [|_]; [contradiction|].
    simpl. rewrite IH. reflexivity.
Qed.

Lemma removeFileExtension_ext (base ext : str) :
  ext <> [] ->
  Forall (fun x => x <> SLASH /\ x <> DOT) ext ->
  removeFileExtension (base ++ DOT :: ext) = base.
Proof.
  intros Hne Hext. unfold removeFileExtension.
  rewrite rev_app_distr. simpl rev. rewrite <- app_assoc. simpl app.
  rewrite span_ext_plain.
  - destruct (rev ext) eqn:E.
    + apply (f_equal (@rev N)) in E. rewrite rev_involutive in E.
      simpl in E. contradiction.
    + rewrite N.eqb_refl. apply rev_involutive.
  - apply Forall_forall. intros x Hx. apply in_rev in Hx.
    rewrite Forall_forall in Hext. apply Hext. exact Hx.
  - right. reflexivity.
Qed.

(** X1.  A name that ends in a dot followed by a non-empty extension
    without dot or slash loses exactly that extension, whatever comes
    before the dot. *)
Theorem removeFileExtension_strips_extension (base ext : str) :
  ext <> [] ->
  Forall (fun x => x <> SLASH /\ x <> DOT) ext ->
  removeFileExtension (base ++ DOT :: ext) = base
  /\ removeFileExtension (base ++ DOT :: ext) ++ DOT :: ext
     = base ++ DOT :: ext.
Proof.
  intros Hne Hext. rewrite removeFileExtension_ext by assumption.
  split; reflexivity.
Qed.

Lemma removeFileExtension_strips_extension_witness :
  removeFileExtension (lit "archive.tar.gz") = lit "archive.tar"
  /\ removeFileExtension (lit "archive.tar.gz") ++ DOT :: lit "gz"
     = lit "archive.tar.gz".
Proof.
  apply (removeFileExtension_strips_extension (lit "archive.tar") (ext := lit "gz")).
  - discriminate.
  - repeat constructor; discriminate.
Defined.

(** X2.  The result is always a prefix of the name, and the name is
    returned as it is when it has no dot, when it ends in a dot and
    when a slash follows its last dot. *)
Theorem removeFileExtension_prefix (nm : str) :
  (exists suffix, nm = removeFileExtension nm ++ suffix)
  /\ (~ In DOT nm -> removeFileExtension nm = nm)
  /\ removeFileExtension (nm ++ [DOT]) = nm ++ [DOT]
  /\ (forall tail, ~ In DOT tail ->
                   removeFileExtension (nm ++ DOT :: SLASH :: tail)
                   = nm ++ DOT :: SLASH :: tail).
Proof.
  repeat split.
  - unfold removeFileExtension.
    pose proof (span_ext_app (rev nm)) as Happ.
    destruct (span_ext (rev nm)) as [e rest]. simpl in Happ.
    destruct e as [|x e]; [exists []; rewrite app_nil_r; reflexivity|].
    destruct rest as [|c pre]; [exists []; rewrite app_nil_r; reflexivity|].
    destruct (N.eqb c DOT); [|exists []; rewrite app_nil_r; reflexivity].
    exists (c :: rev (x :: e)).
    rewrite <- (rev_involutive nm), <- Happ, rev_app_distr.
    simpl rev at 1. rewrite <- app_assoc. reflexivity.
  - intros Hno. unfold removeFileExtension.
    pose proof (span_ext_app (rev nm)) as Happ.
    pose proof (span_ext_stop (rev nm)) as Hstop.
    destruct (span_ext (rev nm)) as [e rest]. simpl in Happ, Hstop.
    destruct e as [|x e]; [reflexivity|].
    destruct rest as [|c pre]; [reflexivity|].
    destruct (N.eqb_spec c DOT) as [->|_]; [|reflexivity].
    exfalso. apply Hno. apply in_rev. rewrite <- Happ.
    apply in_or_app. right. left. reflexivity.
  - unfold removeFileExtension. rewrite rev_app_distr. reflexivity.
  - intros tail Hno. unfold removeFileExtension.
    replace (rev (nm ++ DOT :: SLASH :: tail))
      with (rev tail ++ SLASH :: DOT :: rev nm)
      by (rewrite rev_app_distr; simpl; rewrite <- !app_assoc; reflexivity).
    pose proof (span_ext_app (rev tail ++ SLASH :: DOT :: rev nm)) as Happ.
    pose proof (span_ext_stop (rev tail ++ SLASH :: DOT :: rev nm)) as Hstop.
    destruct (span_ext (rev tail ++ SLASH :: DOT :: rev nm)) as [e rest]
      eqn:Es.
    simpl in Happ, Hstop.
    destruct e as [|x e]; [reflexivity|].
    destruct rest as [|c pre]; [reflexivity|].
    destruct (N.eqb_spec c DOT) as [->|_]; [|reflexivity].
    exfalso. clear Hstop.
    assert (Hsp : forall t r, ~ In DOT t ->
                  exists e', fst (span_ext (t ++ SLASH :: r)) = e'
                             /\ snd (span_ext (t ++ SLASH :: r)) <> []
                             /\ hd 0%N (snd (span_ext (t ++ SLASH :: r)))
                                = SLASH).
    { induction t as [|a t IHt]; intros r Ht; simpl.
      - eexists. repeat split; discriminate.
      - destruct (N.eqb_spec a SLASH) as [->|_]; simpl.
        + eexists. repeat split; discriminate.
        + destruct (N.eqb_spec a DOT) as [->|_]; simpl.
          * exfalso. apply Ht. left. reflexivity.
          * destruct (IHt r) as (e' & _ & H2 & H3).
            { intros H. apply Ht. right. exact H. }
            destruct (span_ext (t ++ SLASH :: r)).
            eexists. simpl in *. repeat split; assumption. }
    destruct (Hsp (rev tail) (DOT :: rev nm)) as (_ & _ & _ & Hhd).
    { intros H. apply Hno. apply in_rev. exact H. }
    rewrite Es in Hhd. simpl in Hhd. discriminate.
Qed.

Section SuffixFacts.

Context {casing : Casing}.

(** X3.  The mode of a name does not depend on its extension: two names
    with the same part before the last dot and proper extensions are
    classified alike, and as the bare part before the dot. *)
Theorem hasSuffix_ignores_extension (base ext1 ext2 suffix : str) :
  ext1 <> [] -> Forall (fun x => x <> SLASH /\ x <> DOT) ext1 ->
  ext2 <> [] -> Forall (fun x => x <> SLASH /\ x <> DOT) ext2 ->
  hasSuffix (base ++ DOT :: ext1) suffix
  = hasSuffix (base ++ DOT :: ext2) suffix
  /\ hasSuffix (base ++ DOT :: ext1) suffix
     = endsWith (toUpperCase base) (toUpperCase suffix).
Proof.
  intros H1 F1 H2 F2. unfold hasSuffix.
  rewrite !removeFileExtension_ext by assumption. split; reflexivity.
Qed.

End SuffixFacts.

Lemma hasSuffix_ignores_extension_witness :
  hasSuffix (casing := ascii_casing) (lit "photo_dsc.jpg") DSC
  = hasSuffix (casing := ascii_casing) (lit "photo_dsc.png") DSC
  /\ hasSuffix (casing := ascii_casing) (lit "photo_dsc.jpg") DSC
     = endsWith (toUpperCase (lit "photo_dsc")) (toUpperCase DSC).
Proof.
  apply (hasSuffix_ignores_extension
           (casing := ascii_casing) (lit "photo_dsc")
           (ext1 := lit "jpg") (ext2 := lit "png") DSC).
  - discriminate.
  - repeat constructor; discriminate.
  - discriminate.
  - repeat constructor; discriminate.
Defined.

(** ** Toggling one image *)

(** X4.  [toggleSelect(id)] flips the membership of [id] and of no
    other key, and two toggles of the same key give back the membership
    of every key. *)
Theorem toggleSelect_flips_one (k : N) (st : State) :
  JSSet.has (selectedIds (toggleSelect k st)) k
  = negb (JSSet.has (selectedIds st) k)
  /\ (forall k', k' <> k ->
                 JSSet.has (selectedIds (toggleSelect k st)) k'
                 = JSSet.has (selectedIds st) k')
  /\ (forall k',
         JSSet.has (selectedIds (toggleSelect k (toggleSelect k st))) k'
         = JSSet.has (selectedIds st) k').
Proof.
  assert (Hone : forall s k',
             JSSet.has (selectedIds (toggleSelect k s)) k'
             = if N.eqb k' k then negb (JSSet.has (selectedIds s) k)
               else JSSet.has (selectedIds s) k').
  { intros s k'. unfold toggleSelect.
    destruct (JSSet.has (selectedIds s) k) eqn:E; simpl.
    - rewrite JSSetFacts.has_delete.
      destruct (N.eqb_spec k' k) as [->|_]; simpl.
      + apply andb_false_r.
      + apply andb_true_r.
    - rewrite JSSetFacts.has_add.
      destruct (N.eqb_spec k' k) as [->|_]; simpl.
      + apply orb_true_r.
      + apply orb_false_r. }
  split; [rewrite Hone, N.eqb_refl; reflexivity|].
  split.
  - intros k' Hk. rewrite Hone.
    destruct (N.eqb_spec k' k); [contradiction | reflexivity].
  - intros k'. rewrite !Hone.
    destruct (N.eqb_spec k' k) as [->|_]; [|reflexivity].
    rewrite N.eqb_refl. apply negb_involutive.
Qed.

(** ** The text of the select-all button *)

Lemma length_has_key (l : list ImageRecord) :
  length (filter has_key l) = length (ids_of l).
Proof.
  unfold has_key, ids_of. induction l as [|img l IH]; simpl; [reflexivity|].
  destruct (id img); simpl; rewrite IH; reflexivity.
Qed.

Lemma filter_has_id_all (s : JSSet.t) (l : list ImageRecord) :
  (forall k, In k (ids_of l) -> JSSet.has s k = true) ->
  filter (has_id s) l = filter has_key l.
Proof.
  unfold has_id, has_key, ids_of.
  induction l as [|img l IH]; simpl; intros H; [reflexivity|].
  destruct (id img) as [k|] eqn:E; simpl in H.
  - rewrite (H k (or_introl eq_refl)). f_equal. apply IH.
    intros k' Hk'. apply H. right. exact Hk'.
  - apply IH. exact H.
Qed.

Lemma filter_has_id_none (s : JSSet.t) (l : list ImageRecord) :
  (forall k, In k (ids_of l) -> JSSet.has s k = false) ->
  filter (has_id s) l = [].
Proof.
  unfold has_id, ids_of.
  induction l as [|img l IH]; simpl; intros H; [reflexivity|].
  destruct (id img) as [k|] eqn:E; simpl in H.
  - rewrite (H k (or_introl eq_refl)). apply IH.
    intros k' Hk'. apply H. right. exact Hk'.
  - apply IH. exact H.
Qed.

Section LabelFacts.

Context {casing : Casing}.

(** X5.  After [selectAllVisible] the button reads ['取消全选'] exactly
    when some visible record has a key, and after [clearSelection] it
    always reads ['全选']. *)
Theorem updateUI_label_after_selection (st : State) :
  updateUI_label (selectAllVisible st)
  = match ids_of (selectAllVisible_visible st) with
    | [] => LABEL_SELECT_ALL
    | _ :: _ => LABEL_DESELECT_ALL
    end
  /\ updateUI_label (clearSelection st) = LABEL_SELECT_ALL.
Proof.
  split.
  - unfold updateUI_label; cbv zeta.
    change (updateUI_visible (selectAllVisible st))
      with (selectAllVisible_visible st).
    rewrite filter_has_id_all.
    + rewrite Nat.eqb_refl, length_has_key.
      destruct (ids_of (selectAllVisible_visible st)); reflexivity.
    + intros k Hk. unfold selectAllVisible; simpl.
      rewrite add_ids_has. apply orb_true_iff. right.
      apply existsb_eqb_In. exact Hk.
  - unfold updateUI_label; cbv zeta.
    rewrite filter_has_id_none by reflexivity. simpl length.
    destruct (length (filter has_key (updateUI_visible (clearSelection st))));
      reflexivity.
Qed.

End LabelFacts.

(** ** The select-all toggle against the gallery *)

Lemma filter_filter_and {A} (f g : A -> bool) (l : list A) :
  filter f (filter g l) = filter (fun x => g x && f x) l.
Proof.
  induction l as [|x l IH]; simpl; [reflexivity|].
  destruct (g x); simpl; [destruct (f x)|]; rewrite IH; reflexivity.
Qed.

Lemma filter_subset_length {A} (f g : A -> bool) (l : list A) :
  (forall x, f x = true -> g x = true) ->
  (length (filter f l) <= length (filter g l))%nat.
Proof.
  intros H. induction l as [|x l IH]; simpl; [lia|].
  destruct (f x) eqn:Ef.
  - rewrite (H x Ef). simpl. lia.
  - destruct (g x); simpl; lia.
Qed.

Lemma filter_same_length {A} (f g : A -> bool) (l : list A) :
  (forall x, f x = true -> g x = true) ->
  length (filter f l) = length (filter g l) ->
  forall x, In x l -> g x = true -> f x = true.
Proof.
  intros H. induction l as [|y l IH]; simpl; intros Hlen x Hin Hg;
    [destruct Hin|].
  pose proof (filter_subset_length f g l H) as Hle.
  destruct (f y) eqn:Ef.
  - rewrite (H y Ef) in Hlen. simpl in Hlen.
    destruct Hin as [->|Hin]; [exact Ef|]. apply IH; [lia | exact Hin | exact Hg].
  - destruct (g y) eqn:Eg; simpl in Hlen; [lia|].
    destruct Hin as [->|Hin]; [congruence|]. apply IH; assumption.
Qed.

Lemma ids_of_In (l : list ImageRecord) (k : N) :
  In k (ids_of l) <-> exists img, In img l /\ id img = Some k.
Proof.
  unfold ids_of. rewrite in_flat_map. split.
  - intros (img & Hin & Hk). exists img. split; [exact Hin|].
    destruct (id img); simpl in Hk; [|destruct Hk].
    destruct Hk as [->|[]]. reflexivity.
  - intros (img & Hin & E). exists img. split; [exact Hin|].
    rewrite E. left. reflexivity.
Qed.

Section ToggleGalleryFacts.

Context {casing : Casing}.

(** X6.  Under a category filter other than ['all'] and ['其他'] the
    toggle works on the very array that the gallery shows and that
    [selectAllVisible] and [updateUI] use. *)
Theorem toggleSelectAll_visible_plain_category (st : State) :
  currentFilter st <> ALL_FILTER ->
  currentFilter st <> OTHER ->
  toggleSelectAll_visible st = renderGallery_filtered st
  /\ toggleSelectAll_visible st = selectAllVisible_visible st
  /\ toggleSelectAll_visible st = updateUI_visible st.
Proof.
  intros Hall Hother.
  apply str_eqb_neq in Hall. apply str_eqb_neq in Hother.
  unfold toggleSelectAll_visible, renderGallery_filtered,
    selectAllVisible_visible, updateUI_visible; cbv zeta.
  rewrite Hall, Hother. simpl negb. cbv iota.
  repeat split; reflexivity.
Qed.

(** X7.  Under the filter ['其他'] the toggle leaves out the records
    whose category is the string ['其他'] itself: its array is the
    gallery's array without them. *)
Theorem toggleSelectAll_visible_other (st : State) :
  currentFilter st = OTHER ->
  toggleSelectAll_visible st
  = filter (fun img => negb (strict_eq (category img) (Str OTHER)))
           (renderGallery_filtered st)
  /\ Forall (fun img => category img = Null \/ category img = Str [])
            (toggleSelectAll_visible st).
Proof.
  intros Hother.
  assert (Hnarrow : forall l,
             filter (fun img => strict_eq (category img) Null
                                || strict_eq (category img) (Str [])) l
             = filter (fun img => negb (strict_eq (category img) (Str OTHER)))
                      (filter other_match l)).
  { intros l. rewrite filter_filter_and. apply filter_ext. intros img.
    unfold other_match.
    destruct (strict_eq (category img) (Str OTHER)) eqn:E.
    - apply strict_eq_eq in E. rewrite E. reflexivity.
    - rewrite orb_false_r, andb_true_r. reflexivity. }
  assert (Ht : toggleSelectAll_visible st
               = filter (fun img => negb (strict_eq (category img) (Str OTHER)))
                        (renderGallery_filtered st)).
  { unfold toggleSelectAll_visible, renderGallery_filtered; cbv zeta.
    rewrite Hother. change (str_eqb OTHER ALL_FILTER) with false.
    rewrite str_eqb_refl. simpl negb. cbv iota.
    rewrite Hnarrow.
    destruct (0 <? length (currentTagFilters st))%nat;
      destruct (mode_active (currentModeFilter st));
      rewrite ?(filter_comm (fun img => negb (strict_eq (category img) (Str OTHER))));
      reflexivity. }
  split; [exact Ht|].
  rewrite Ht. apply Forall_forall. intros img Hin.
  apply filter_In in Hin. destruct Hin as [Hin Hno].
  assert (Ho : other_match img = true).
  { revert Hin. unfold renderGallery_filtered; cbv zeta.
    rewrite Hother. change (str_eqb OTHER ALL_FILTER) with false.
    rewrite str_eqb_refl. simpl negb. cbv iota.
    intros Hin.
    repeat match type of Hin with
           | In _ (if ?c then _ else _) => destruct c
           | In _ (filter other_match _) =>
               apply filter_In in Hin; destruct Hin as [_ Hin]
           | In _ (filter _ _) =>
               apply filter_In in Hin; destruct Hin as [Hin _]
           end; exact Hin. }
  unfold other_match in Ho. apply negb_true_iff in Hno. rewrite Hno in Ho.
  rewrite orb_false_r in Ho. apply orb_true_iff in Ho.
  destruct Ho as [Ho|Ho]; apply strict_eq_eq in Ho; auto.
Qed.

Lemma toggleSelectAll_visible_sel (s : JSSet.t) (st : State) :
  toggleSelectAll_visible (with_selectedIds s st) = toggleSelectAll_visible st.
Proof. reflexivity. Qed.

(** X8.  When the toggle's array holds a record with a key, one toggle
    flips the all-selected test.  Two toggles give back the membership
    of every key if everything visible was selected, and otherwise end
    with the old selection minus the visible keys. *)
Theorem toggleSelectAll_twice (st : State) :
  ids_of (toggleSelectAll_visible st) <> [] ->
  toggleSelectAll_all_selected (toggleSelectAll st)
  = negb (toggleSelectAll_all_selected st)
  /\ (forall k,
         JSSet.has (selectedIds (toggleSelectAll (toggleSelectAll st))) k
         = JSSet.has (selectedIds st) k
           && (toggleSelectAll_all_selected st
               || negb (existsb (N.eqb k) (ids_of (toggleSelectAll_visible st))))).
Proof.
  intros Hne.
  set (vis := toggleSelectAll_visible st) in *.
  assert (Hpos : (0 <? length (filter has_key vis))%nat = true).
  { rewrite length_has_key. destruct (ids_of vis); [congruence | reflexivity]. }
  assert (Hflag : forall s,
             (forall k, In k (ids_of vis) -> JSSet.has s k = true) ->
             toggleSelectAll_all_selected (with_selectedIds s st) = true).
  { intros s Hs. unfold toggleSelectAll_all_selected; cbv zeta.
    rewrite toggleSelectAll_visible_sel. fold vis. simpl selectedIds.
    rewrite filter_has_id_all by exact Hs.
    rewrite Nat.eqb_refl, Hpos. reflexivity. }
  assert (Hnoflag : forall s,
             (forall k, In k (ids_of vis) -> JSSet.has s k = false) ->
             toggleSelectAll_all_selected (with_selectedIds s st) = false).
  { intros s Hs. unfold toggleSelectAll_all_selected; cbv zeta.
    rewrite toggleSelectAll_visible_sel. fold vis. simpl selectedIds.
    rewrite filter_has_id_none by exact Hs. simpl length.
    destruct (length (filter has_key vis)); [discriminate | reflexivity]. }
  assert (Hins : forall k, In k (ids_of vis) ->
                           JSSet.has (insert_ids vis (selectedIds st)) k = true).
  { intros k Hk. rewrite insert_ids_has. apply orb_true_iff. right.
    apply existsb_eqb_In. exact Hk. }
  assert (Hrem : forall k, In k (ids_of vis) ->
                           JSSet.has (remove_ids vis (selectedIds st)) k = false).
  { intros k Hk. rewrite remove_ids_has.
    apply existsb_eqb_In in Hk. rewrite Hk. apply andb_false_r. }
  unfold toggleSelectAll at 1 3. fold vis.
  destruct (toggleSelectAll_all_selected st) eqn:Eflag.
  - split; [apply Hnoflag; exact Hrem|].
    intros k. unfold toggleSelectAll.
    rewrite (Hnoflag _ Hrem), toggleSelectAll_visible_sel. fold vis. simpl.
    rewrite insert_ids_has, remove_ids_has, andb_true_r.
    destruct (existsb (N.eqb k) (ids_of vis)) eqn:Ek; simpl.
    + rewrite andb_false_r. simpl.
      apply existsb_eqb_In in Ek. apply ids_of_In in Ek.
      destruct Ek as (img & Hin & Hid).
      unfold toggleSelectAll_all_selected in Eflag; cbv zeta in Eflag.
      fold vis in Eflag. apply andb_true_iff in Eflag.
      destruct Eflag as [Heq _]. apply Nat.eqb_eq in Heq.
      assert (Hsel : has_id (selectedIds st) img = true).
      { apply (filter_same_length (has_id (selectedIds st)) has_key vis).
        - intros x. unfold has_id, has_key. destruct (id x); auto.
        - exact Heq.
        - exact Hin.
        - unfold has_key. rewrite Hid. reflexivity. }
      unfold has_id in Hsel. rewrite Hid in Hsel. symmetry. exact Hsel.
    + rewrite andb_true_r, orb_false_r. reflexivity.
  - split; [apply Hflag; exact Hins|].
    intros k. unfold toggleSelectAll.
    rewrite (Hflag _ Hins), toggleSelectAll_visible_sel. fold vis. simpl.
    rewrite remove_ids_has, insert_ids_has.
    destruct (existsb (N.eqb k) (ids_of vis)); simpl.
    + rewrite !andb_false_r. reflexivity.
    + rewrite orb_false_r. reflexivity.
Qed.

End ToggleGalleryFacts.

Lemma toggleSelectAll_visible_plain_category_witness :
  toggleSelectAll_visible (casing := ascii_casing)
    (filterCategory (lit "Lab") tagged_state)
  = renderGallery_filtered (casing := ascii_casing)
      (filterCategory (lit "Lab") tagged_state)
  /\ toggleSelectAll_visible (casing := ascii_casing)
       (filterCategory (lit "Lab") tagged_state)
     = selectAllVisible_visible (casing := ascii_casing)
         (filterCategory (lit "Lab") tagged_state)
  /\ toggleSelectAll_visible (casing := ascii_casing)
       (filterCategory (lit "Lab") tagged_state)
     = updateUI_visible (casing := ascii_casing)
         (filterCategory (lit "Lab") tagged_state).
Proof.
  apply (toggleSelectAll_visible_plain_category
           (casing := ascii_casing) (filterCategory (lit "Lab") tagged_state));
    discriminate.
Defined.

Lemma toggleSelectAll_visible_other_witness :
  toggleSelectAll_visible (casing := ascii_casing)
    (loaded [real_record 1 (lit "a.png") (Str OTHER) [];
             real_record 2 (lit "b.png") Null []]
            JSSet.empty OTHER [] ALL)
  = [real_record 2 (lit "b.png") Null []]
  /\ renderGallery_filtered (casing := ascii_casing)
       (loaded [real_record 1 (lit "a.png") (Str OTHER) [];
                real_record 2 (lit "b.png") Null []]
               JSSet.empty OTHER [] ALL)
     = [real_record 1 (lit "a.png") (Str OTHER) [];
        real_record 2 (lit "b.png") Null []].
Proof.
  pose proof (toggleSelectAll_visible_other
                (casing := ascii_casing)
                (loaded [real_record 1 (lit "a.png") (Str OTHER) [];
                         real_record 2 (lit "b.png") Null []]
                        JSSet.empty OTHER [] ALL) eq_refl) as [H _].
  split; [rewrite H|]; reflexivity.
Defined.

Lemma toggleSelectAll_twice_witness :
  toggleSelectAll_all_selected (casing := ascii_casing)
    (toggleSelectAll (casing := ascii_casing) tagged_state)
  = negb (toggleSelectAll_all_selected (casing := ascii_casing) tagged_state)
  /\ selectedIds (toggleSelectAll (casing := ascii_casing)
                    (toggleSelectAll (casing := ascii_casing) tagged_state))
     = [].
Proof.
  pose proof (toggleSelectAll_twice (casing := ascii_casing) tagged_state)
    as H.
  destruct H as [H _].
  - discriminate.
  - split; [exact H | reflexivity].
Defined.

(** ** Changing the filters *)

Lemma includes_str_In (arr : list str) (x : str) :
  includes_str arr x = true <-> In x arr.
Proof.
  unfold includes_str. rewrite existsb_exists. split.
  - intros (y & Hy & E). apply str_eqb_eq in E. subst. exact Hy.
  - intros H. exists x. split; [exact H | apply str_eqb_refl].
Qed.

Section FilterChangeFacts.

Context {casing : Casing}.

(** X9.  [filterCategory] keeps the selection and resets the tag
    filters, so right after it, for every category but ['其他'], the
    toggle, the gallery and [selectAllVisible] work on the same array,
    also for ['all']. *)
Theorem filterCategory_aligns_toggle (cat : str) (st : State) :
  cat <> OTHER ->
  selectedIds (filterCategory cat st) = selectedIds st
  /\ currentTagFilters (filterCategory cat st) = []
  /\ toggleSelectAll_visible (filterCategory cat st)
     = renderGallery_filtered (filterCategory cat st)
  /\ toggleSelectAll_visible (filterCategory cat st)
     = selectAllVisible_visible (filterCategory cat st).
Proof.
  intros Hother. apply str_eqb_neq in Hother.
  split; [reflexivity|]. split; [reflexivity|].
  unfold toggleSelectAll_visible, renderGallery_filtered,
    selectAllVisible_visible; cbv zeta.
  simpl currentFilter. simpl currentTagFilters. simpl length.
  rewrite Hother. cbv iota.
  destruct (str_eqb cat ALL_FILTER); split; reflexivity.
Qed.

(** X10.  [toggleTag] keeps at most one tag filter.  After
    [toggleTag(tag)] with a tag other than ['all'] every record that the
    gallery shows carries that tag; after [toggleTag('all')] no tag
    filter is left. *)
Theorem toggleTag_single_filter (tag : str) (st : State) :
  (length (currentTagFilters (toggleTag tag st)) <= 1)%nat
  /\ (tag <> ALL_FILTER ->
      currentTagFilters (toggleTag tag st) = [tag]
      /\ Forall (fun img => In tag (tags_or_empty img))
                (renderGallery_filtered (toggleTag tag st)))
  /\ (tag = ALL_FILTER -> currentTagFilters (toggleTag tag st) = []).
Proof.
  unfold toggleTag.
  destruct (str_eqb tag ALL_FILTER) eqn:E.
  - apply str_eqb_eq in E. split; [simpl; lia|].
    split; [intros H; contradiction | reflexivity].
  - apply str_eqb_neq in E. split; [simpl; lia|].
    split; [|intros H; contradiction].
    intros _. split; [reflexivity|].
    unfold renderGallery_filtered; cbv zeta.
    simpl currentTagFilters. simpl length. cbv iota.
    assert (Htag : forall l, Forall (fun img => In tag (tags_or_empty img))
                                    (filter (tags_match [tag]) l)).
    { intros l. apply Forall_forall. intros img Hin.
      apply filter_In in Hin. destruct Hin as [_ Hm].
      unfold tags_match, tags_or_empty in *.
      destruct (tags img) as [[|t ts]|]; try discriminate.
      simpl forallb in Hm. rewrite andb_true_r in Hm.
      apply includes_str_In. exact Hm. }
    simpl Nat.ltb. cbv iota.
    destruct (mode_active _); [apply Forall_filter_keep|]; apply Htag.
Qed.

End FilterChangeFacts.

Lemma filterCategory_aligns_toggle_witness :
  selectedIds (filterCategory ALL_FILTER tagged_state)
  = selectedIds tagged_state
  /\ currentTagFilters (filterCategory ALL_FILTER tagged_state) = []
  /\ toggleSelectAll_visible (casing := ascii_casing)
       (filterCategory ALL_FILTER tagged_state)
     = renderGallery_filtered (casing := ascii_casing)
         (filterCategory ALL_FILTER tagged_state)
  /\ toggleSelectAll_visible (casing := ascii_casing)
       (filterCategory ALL_FILTER tagged_state)
     = selectAllVisible_visible (casing := ascii_casing)
         (filterCategory ALL_FILTER tagged_state).
Proof.
  apply (filterCategory_aligns_toggle (casing := ascii_casing)).
  discriminate.
Defined.

(** ** Cursor scans *)

Lemma openCursor_flat_map (step : ImageRecord -> cursor_op)
  (rs : list ImageRecord) :
  openCursor step rs = flat_map (cursor_result step) rs.
Proof.
  induction rs as [|r rs IH]; simpl; [reflexivity|].
  unfold cursor_result at 1. destruct (step r); rewrite IH; reflexivity.
Qed.

Lemma openCursor_no_delete (step : ImageRecord -> cursor_op)
  (rs : list ImageRecord) :
  (forall r, step r <> CursorDelete) ->
  openCursor step rs
  = map (fun r => match step r with CursorUpdate v => v | _ => r end) rs.
Proof.
  intros H. induction rs as [|r rs IH]; simpl; [reflexivity|].
  specialize (H r). destruct (step r); rewrite ?IH; congruence.
Qed.

Lemma openCursor_ids_in (step : ImageRecord -> cursor_op)
  (rs : list ImageRecord) (i : option N) :
  keeps_id step ->
  In i (map id (openCursor step rs)) -> In i (map id rs).
Proof.
  intros Hk. induction rs as [|r rs IH]; simpl; [auto|].
  destruct (step r) eqn:E; simpl.
  - intros [H|H]; auto.
  - rewrite (Hk _ _ E). intros [H|H]; auto.
  - auto.
Qed.

Lemma openCursor_wf (step : ImageRecord -> cursor_op) (s : Store) :
  keeps_id step -> store_wf s ->
  store_wf (with_rows (openCursor step (rows s)) s).
Proof.
  intros Hk [Hnd Hall]. unfold store_wf. simpl rows. simpl nextKey.
  generalize dependent (nextKey s). intros n Hall.
  induction (rows s) as [|r rs IH]; simpl; [split; constructor|].
  inversion Hnd as [|? ? Hnotin Hnd']; subst.
  inversion Hall as [|? ? Hr Hall']; subst.
  destruct (IH Hnd' Hall') as [IH1 IH2].
  destruct (step r) eqn:E; simpl.
  - split; constructor; auto.
    intros H. apply Hnotin. eapply openCursor_ids_in; eassumption.
  - split; constructor; auto.
    + rewrite (Hk _ _ E). intros H. apply Hnotin.
      eapply openCursor_ids_in; eassumption.
    + rewrite (Hk _ _ E). exact Hr.
  - split; assumption.
Qed.

Lemma openCursor_first_update (p : ImageRecord -> bool)
  (f : ImageRecord -> ImageRecord) (rs : list ImageRecord) :
  openCursor_first p f rs
  = if existsb p rs then Some (update_first p f rs) else None.
Proof.
  induction rs as [|r rs IH]; simpl; [reflexivity|].
  destruct (p r); simpl; [reflexivity|].
  rewrite IH. destruct (existsb p rs); reflexivity.
Qed.

Lemma update_first_none (p : ImageRecord -> bool)
  (f : ImageRecord -> ImageRecord) (l : list ImageRecord) :
  existsb p l = false -> update_first p f l = l.
Proof.
  induction l as [|x l IH]; simpl; [reflexivity|].
  destruct (p x); simpl; [discriminate|]. intros H. rewrite IH by exact H.
  reflexivity.
Qed.

Lemma update_first_map {B} (g : ImageRecord -> B) (p : ImageRecord -> bool)
  (f : ImageRecord -> ImageRecord) (l : list ImageRecord) :
  (forall x, g (f x) = g x) ->
  map g (update_first p f l) = map g l.
Proof.
  intros H. induction l as [|x l IH]; simpl; [reflexivity|].
  destruct (p x); simpl; [rewrite H | rewrite IH]; reflexivity.
Qed.

Lemma update_first_find (p : ImageRecord -> bool)
  (f : ImageRecord -> ImageRecord) (l : list ImageRecord) :
  (forall x, p (f x) = p x) ->
  find p (update_first p f l) = option_map f (find p l).
Proof.
  intros H. induction l as [|x l IH]; simpl; [reflexivity|].
  destruct (p x) eqn:E; simpl.
  - rewrite H, E. reflexivity.
  - rewrite E. exact IH.
Qed.

Lemma update_first_others (p : ImageRecord -> bool)
  (f : ImageRecord -> ImageRecord) (l : list ImageRecord) (x : ImageRecord) :
  In x (update_first p f l) -> In x l \/ exists y, In y l /\ p y = true /\ x = f y.
Proof.
  induction l as [|y l IH]; simpl; [auto|].
  destruct (p y) eqn:E; simpl.
  - intros [<-|H]; [right; exists y; auto | auto].
  - intros [<-|H]; [auto|]. destruct (IH H) as [H'|(z & Hz & Hp & Hx)]; auto.
    right. exists z. auto.
Qed.

Section PipelineFacts.

Context {casing : Casing}.

Lemma renderGallery_filtered_pred (st : State) :
  renderGallery_filtered st = filter (visible_pred st) (allImages st).
Proof.
  unfold renderGallery_filtered, visible_pred; cbv zeta.
  destruct (negb (str_eqb (currentFilter st) ALL_FILTER));
    [destruct (str_eqb (currentFilter st) OTHER)|];
    destruct (0 <? length (currentTagFilters st))%nat;
    destruct (mode_active (currentModeFilter st));
    rewrite ?filter_filter_and; apply filter_ext; intros img;
    rewrite ?andb_assoc, ?andb_true_r; reflexivity.
Qed.

Lemma visible_pred_real (st : State) (img : ImageRecord) :
  visible_pred st img = true -> is_real img = true.
Proof.
  unfold visible_pred. intros H.
  apply andb_true_iff in H. destruct H as [H _].
  apply andb_true_iff in H. destruct H as [H _].
  apply andb_true_iff in H. destruct H as [H _]. exact H.
Qed.

End PipelineFacts.

(** ** Renaming and deleting a tag *)

Lemma set_tags_same (r : ImageRecord) (ts : list str) :
  tags r = Some ts -> set_tags (Some ts) r = r.
Proof. destruct r; simpl. intros ->. reflexivity. Qed.

Lemma filter_absent (nm : str) (ts : list str) :
  includes_str ts nm = false ->
  filter (fun t => negb (str_eqb t nm)) ts = ts.
Proof.
  unfold includes_str. induction ts as [|t ts IH]; simpl; [reflexivity|].
  destruct (str_eqb t nm); simpl; [discriminate|].
  intros H. rewrite IH by exact H. reflexivity.
Qed.

Lemma map_absent (oldName newName : str) (ts : list str) :
  includes_str ts oldName = false ->
  map (fun t => if str_eqb t oldName then newName else t) ts = ts.
Proof.
  unfold includes_str. induction ts as [|t ts IH]; simpl; [reflexivity|].
  destruct (str_eqb t oldName); simpl; [discriminate|].
  intros H. rewrite IH by exact H. reflexivity.
Qed.

Lemma deleteTagNew_rows (nm : str) (st : State) :
  rows (db (deleteTagNew nm st))
  = map (fun r => match tags r with
                  | Some ts =>
                      set_tags (Some (filter (fun t => negb (str_eqb t nm)) ts)) r
                  | None => r
                  end) (rows (db st)).
Proof.
  unfold deleteTagNew. simpl rows.
  rewrite openCursor_no_delete.
  - apply map_ext. intros r. unfold deleteTagNew_step.
    destruct (tags r) as [ts|] eqn:E; [|reflexivity].
    destruct (includes_str ts nm) eqn:Ei; [reflexivity|].
    rewrite filter_absent by exact Ei. symmetry. apply set_tags_same. exact E.
  - intros r. unfold deleteTagNew_step.
    destruct (tags r) as [ts|]; [destruct (includes_str ts nm)|]; discriminate.
Qed.

(** X11.  [deleteTagNew(name)] removes the tag from the tag list of
    every row and changes nothing else: the rows keep their number,
    order and every other field, the other tags keep their order, and
    afterwards no row carries the tag.  The snapshot is reloaded. *)
Theorem deleteTagNew_cascade (nm : str) (st : State) :
  allImages (deleteTagNew nm st) = rows (db (deleteTagNew nm st))
  /\ map (set_tags None) (rows (db (deleteTagNew nm st)))
     = map (set_tags None) (rows (db st))
  /\ map tags_or_empty (rows (db (deleteTagNew nm st)))
     = map (fun r => filter (fun t => negb (str_eqb t nm)) (tags_or_empty r))
           (rows (db st))
  /\ Forall (fun r => ~ In nm (tags_or_empty r))
            (rows (db (deleteTagNew nm st))).
Proof.
  split; [reflexivity|].
  rewrite deleteTagNew_rows.
  split; [|split].
  - rewrite map_map. apply map_ext. intros r.
    destruct (tags r); reflexivity.
  - rewrite map_map. apply map_ext. intros r. unfold tags_or_empty.
    destruct (tags r) eqn:E; simpl; rewrite ?E; reflexivity.
  - apply Forall_forall. intros r Hin. apply in_map_iff in Hin.
    destruct Hin as (r0 & <- & _). unfold tags_or_empty.
    destruct (tags r0) as [ts|] eqn:E; simpl; [|rewrite E; auto].
    intros H. apply filter_In in H. destruct H as [_ H].
    rewrite str_eqb_refl in H. discriminate.
Qed.

Lemma dedup_str_from_In (seen arr : list str) (x : str) :
  In x (dedup_str_from seen arr) <-> In x arr /\ ~ In x seen.
Proof.
  revert seen. induction arr as [|a arr IH]; intros seen; simpl.
  - tauto.
  - destruct (includes_str seen a) eqn:E.
    + apply includes_str_In in E. rewrite IH. split.
      * intros [H1 H2]. auto.
      * intros [[->|H1] H2]; [contradiction | auto].
    + assert (Ha : ~ In a seen).
      { intros H. apply includes_str_In in H. congruence. }
      simpl. rewrite IH. simpl. split.
      * intros [->|[H1 H2]]; [auto|]. split; [auto|]. intros H. apply H2. auto.
      * intros [[->|H1] H2]; [auto|].
        destruct (str_eqb a x) eqn:Eax.
        -- apply str_eqb_eq in Eax. auto.
        -- right. split; [exact H1|]. intros [->|H]; [|contradiction].
           rewrite str_eqb_refl in Eax. discriminate.
Qed.

Lemma existingTags_In (imgs : list ImageRecord) (x : str) :
  includes_str (existingTags imgs) x = true
  <-> exists img, In img imgs /\ In x (tags_or_empty img).
Proof.
  rewrite includes_str_In. unfold existingTags.
  rewrite dedup_str_from_In, in_flat_map. split.
  - intros [(img & Hin & Hx) _]. apply filter_In in Hin.
    exists img. split; [apply Hin | exact Hx].
  - intros (img & Hin & Hx). split; [|simpl; tauto].
    exists img. split; [|exact Hx]. apply filter_In. split; [exact Hin|].
    unfold tags_or_empty in Hx. destruct (tags img); [reflexivity | destruct Hx].
Qed.

Lemma renameTagNew_rows (oldName newName : str) (st : State) :
  fst (renameTagNew oldName newName st) = Succeeded ->
  rows (db (snd (renameTagNew oldName newName st)))
  = map (fun r => match tags r with
                  | Some ts =>
                      set_tags (Some (map (fun t => if str_eqb t oldName
                                                    then newName else t) ts)) r
                  | None => r
                  end) (rows (db st)).
Proof.
  unfold renameTagNew.
  destruct (includes_str (existingTags (allImages st)) newName);
    [discriminate|].
  intros _. simpl rows.
  rewrite openCursor_no_delete.
  - apply map_ext. intros r. unfold renameTagNew_step.
    destruct (tags r) as [ts|] eqn:E; [|reflexivity].
    destruct (includes_str ts oldName) eqn:Ei; [reflexivity|].
    rewrite map_absent by exact Ei. symmetry. apply set_tags_same. exact E.
  - intros r. unfold renameTagNew_step.
    destruct (tags r) as [ts|]; [destruct (includes_str ts oldName)|];
      discriminate.
Qed.

(** X12.  [renameTagNew(old, new)] is rejected, with the state as it
    was, exactly when some record of the snapshot already carries
    [new].  Otherwise every occurrence of [old] in every row's tag list
    becomes [new] in place, nothing else changes, the snapshot is
    reloaded, and no row carries [old] any more unless the two names are
    the same. *)
Theorem renameTagNew_cascade (oldName newName : str) (st : State) :
  (fst (renameTagNew oldName newName st) = RejectedExists
   <-> exists img, In img (allImages st) /\ In newName (tags_or_empty img))
  /\ (fst (renameTagNew oldName newName st) = RejectedExists ->
      snd (renameTagNew oldName newName st) = st)
  /\ (fst (renameTagNew oldName newName st) = Succeeded ->
      allImages (snd (renameTagNew oldName newName st))
      = rows (db (snd (renameTagNew oldName newName st)))
      /\ map (set_tags None) (rows (db (snd (renameTagNew oldName newName st))))
         = map (set_tags None) (rows (db st))
      /\ map tags_or_empty (rows (db (snd (renameTagNew oldName newName st))))
         = map (fun r => map (fun t => if str_eqb t oldName
                                       then newName else t)
                             (tags_or_empty r))
               (rows (db st))
      /\ (oldName <> newName ->
          Forall (fun r => ~ In oldName (tags_or_empty r))
                 (rows (db (snd (renameTagNew oldName newName st)))))).
Proof.
  split; [|split].
  - rewrite <- existingTags_In. unfold renameTagNew.
    destruct (includes_str (existingTags (allImages st)) newName); simpl;
      split; (reflexivity || discriminate).
  - unfold renameTagNew.
    destruct (includes_str (existingTags (allImages st)) newName);
      [reflexivity | discriminate].
  - intros Hok. split.
    { unfold renameTagNew in *.
      destruct (includes_str (existingTags (allImages st)) newName);
        [discriminate | reflexivity]. }
    rewrite (renameTagNew_rows _ _ _ Hok).
    split; [|split].
    + rewrite map_map. apply map_ext. intros r.
      destruct (tags r); reflexivity.
    + rewrite map_map. apply map_ext. intros r. unfold tags_or_empty.
      destruct (tags r) eqn:E; simpl; rewrite ?E; reflexivity.
    + intros Hneq. apply Forall_forall. intros r Hin.
      apply in_map_iff in Hin. destruct Hin as (r0 & <- & _).
      unfold tags_or_empty.
      destruct (tags r0) as [ts|] eqn:E; simpl; [|rewrite E; auto].
      intros H. apply in_map_iff in H. destruct H as (t & Ht & _).
      destruct (str_eqb t oldName) eqn:Et.
      * apply Hneq. symmetry. exact Ht.
      * apply str_eqb_neq in Et. apply Et. exact Ht.
Qed.

(** ** Setting the tags of one image by name *)


(** ** Deleting the selected images *)

Lemma openCursor_delete_filter (p : ImageRecord -> bool)
  (rs : list ImageRecord) :
  openCursor (fun value => if p value then CursorDelete else CursorContinue) rs
  = filter (fun r => negb (p r)) rs.
Proof.
  induction rs as [|r rs IH]; simpl; [reflexivity|].
  destruct (p r); simpl; rewrite IH; reflexivity.
Qed.

Lemma deleteSelectedImages_rows (st : State) :
  rows (db (deleteSelectedImages st))
  = filter (fun r => negb (has_id (selectedIds st) r)) (rows (db st)).
Proof.
  unfold deleteSelectedImages, JSSet.size.
  destruct (selectedIds st) as [|k s] eqn:E; simpl.
  - symmetry. apply filter_all_true. intros r _. unfold has_id.
    destruct (id r); reflexivity.
  - apply openCursor_delete_filter.
Qed.

(** X14.  [deleteSelectedImages] deletes exactly the rows whose key is
    selected, sentinels included, keeps the other rows in order, and
    leaves the selection empty.  With a non-empty selection the snapshot
    is reloaded; with an empty one nothing at all changes. *)
Theorem deleteSelectedImages_removes_selected (st : State) :
  rows (db (deleteSelectedImages st))
  = filter (fun r => negb (has_id (selectedIds st) r)) (rows (db st))
  /\ selectedIds (deleteSelectedImages st) = JSSet.empty
  /\ Forall (fun r => has_id (selectedIds st) r = false)
            (rows (db (deleteSelectedImages st)))
  /\ (selectedIds st <> [] ->
      allImages (deleteSelectedImages st)
      = rows (db (deleteSelectedImages st)))
  /\ (selectedIds st = [] -> deleteSelectedImages st = st).
Proof.
  pose proof (deleteSelectedImages_rows st) as Hrows.
  split; [exact Hrows|].
  split.
  { unfold deleteSelectedImages, JSSet.size.
    destruct (selectedIds st) as [|k s] eqn:E; simpl; [exact E | reflexivity]. }
  split.
  { rewrite Hrows. apply Forall_forall. intros r Hin.
    apply filter_In in Hin. destruct Hin as [_ H].
    apply negb_true_iff in H. exact H. }
  split.
  - intros Hne. unfold deleteSelectedImages, JSSet.size.
    destruct (selectedIds st); [congruence | reflexivity].
  - intros He. unfold deleteSelectedImages, JSSet.size. rewrite He.
    reflexivity.
Qed.

Lemma NoDup_map_same {A B} (f : A -> B) (l : list A) (x y : A) :
  NoDup (map f l) -> In x l -> In y l -> f x = f y -> x = y.
Proof.
  induction l as [|a l IH]; simpl; intros Hnd Hx Hy E; [destruct Hx|].
  inversion Hnd as [|? ? Hnotin Hnd']; subst.
  destruct Hx as [->|Hx], Hy as [->|Hy].
  - reflexivity.
  - exfalso. apply Hnotin. rewrite E. apply in_map. exact Hy.
  - exfalso. apply Hnotin. rewrite <- E. apply in_map. exact Hx.
  - apply IH; assumption.
Qed.

Section SelectDeleteFacts.

Context {casing : Casing}.

(** X15.  On a well-formed store mirrored by the snapshot and with
    nothing selected, [selectAllVisible] followed by
    [deleteSelectedImages] deletes every record that the gallery showed
    and nothing else: the gallery is empty afterwards under the same
    filters, every sentinel is still there, and so is every real record
    that the filters hid. *)
Theorem selectAll_delete_keeps_sentinels (st : State) :
  store_wf (db st) -> in_sync st -> selectedIds st = [] ->
  rows (db (deleteSelectedImages (selectAllVisible st)))
  = filter (fun r => negb (visible_pred st r)) (rows (db st))
  /\ renderGallery_filtered (deleteSelectedImages (selectAllVisible st)) = []
  /\ filter (fun r => negb (is_real r))
            (rows (db (deleteSelectedImages (selectAllVisible st))))
     = filter (fun r => negb (is_real r)) (rows (db st)).
Proof.
  intros [Hnd Hkeys] Hsync Hsel. unfold in_sync in Hsync.
  assert (Hvis : selectAllVisible_visible st
                 = filter (visible_pred st) (rows (db st))).
  { rewrite <- Hsync. apply (renderGallery_filtered_pred st). }
  assert (Hdel : forall r, In r (rows (db st)) ->
                 has_id (selectedIds (selectAllVisible st)) r
                 = visible_pred st r).
  { intros r Hin. unfold has_id.
    rewrite Forall_forall in Hkeys. destruct (Hkeys r Hin) as (k & Hk & _).
    rewrite Hk. unfold selectAllVisible; simpl. rewrite add_ids_has, Hsel.
    simpl. rewrite Hvis.
    destruct (visible_pred st r) eqn:Ep.
    - apply existsb_eqb_In. apply ids_of_In. exists r. split; [|exact Hk].
      apply filter_In. split; assumption.
    - destruct (existsb (N.eqb k) (ids_of (filter (visible_pred st) (rows (db st)))))
        eqn:Ee; [|reflexivity].
      apply existsb_eqb_In in Ee. apply ids_of_In in Ee.
      destruct Ee as (v & Hv & Hvk). apply filter_In in Hv.
      destruct Hv as [Hv Hpv].
      assert (v = r).
      { apply (NoDup_map_same id (rows (db st))); try assumption.
        congruence. }
      subst v. congruence. }
  assert (Hrows : rows (db (deleteSelectedImages (selectAllVisible st)))
                  = filter (fun r => negb (visible_pred st r)) (rows (db st))).
  { rewrite deleteSelectedImages_rows. simpl rows.
    apply filter_ext_in. intros r Hin.
    rewrite Hdel by exact Hin. reflexivity. }
  split; [exact Hrows|].
  split.
  - rewrite renderGallery_filtered_pred.
    assert (Hall : allImages (deleteSelectedImages (selectAllVisible st))
                   = filter (fun r => negb (visible_pred st r)) (rows (db st))).
    { unfold deleteSelectedImages, JSSet.size.
      destruct (selectedIds (selectAllVisible st)) as [|k s] eqn:E.
      - simpl. rewrite Hsync. symmetry. apply filter_all_true.
        intros r Hin. rewrite <- Hdel by exact Hin. rewrite ?E.
        unfold has_id. destruct (id r); reflexivity.
      - simpl. rewrite openCursor_delete_filter. apply filter_ext_in.
        intros r Hin. rewrite <- Hdel by exact Hin. rewrite ?E.
        reflexivity. }
    rewrite Hall.
    assert (Hp : forall r, visible_pred (deleteSelectedImages (selectAllVisible st)) r
                           = visible_pred st r).
    { intros r. unfold deleteSelectedImages, JSSet.size.
      destruct (selectedIds (selectAllVisible st)); reflexivity. }
    rewrite (filter_ext _ _ Hp), filter_filter_and.
    clear. induction (rows (db st)) as [|r rs IH]; simpl; [reflexivity|].
    destruct (visible_pred st r); simpl; apply IH.
  - rewrite Hrows, filter_filter_and. apply filter_ext. intros r.
    destruct (visible_pred st r) eqn:Ep; simpl; [|reflexivity].
    apply visible_pred_real in Ep. rewrite Ep. reflexivity.
Qed.

End SelectDeleteFacts.

Lemma selectAll_delete_keeps_sentinels_witness :
  rows (db (deleteSelectedImages
              (selectAllVisible (casing := ascii_casing)
                 (loaded [sentinel_record 1 (lit "Lab");
                          real_record 2 (lit "x_DSC.jpg") (Str (lit "Lab"))
                                      [lit "PBT"];
                          real_record 3 (lit "y.png") Null []]
                         JSSet.empty (lit "Lab") [] ALL))))
  = [sentinel_record 1 (lit "Lab"); real_record 3 (lit "y.png") Null []].
Proof.
  pose proof (@selectAll_delete_keeps_sentinels
                ascii_casing
                (loaded [sentinel_record 1 (lit "Lab");
                         real_record 2 (lit "x_DSC.jpg") (Str (lit "Lab"))
                                     [lit "PBT"];
                         real_record 3 (lit "y.png") Null []]
                        JSSet.empty (lit "Lab") [] ALL)) as H.
  destruct H as [H _].
  - split.
    + simpl. repeat constructor; simpl; intuition discriminate.
    + simpl. repeat constructor; eexists; (split; [reflexivity|]);
        reflexivity.
  - reflexivity.
  - reflexivity.
  - rewrite H. reflexivity.
Defined.

(** ** Invariants of the store *)

Lemma NoDup_snoc {A} (l : list A) (x : A) :
  NoDup l -> ~ In x l -> NoDup (l ++ [x]).
Proof.
  induction l as [|a l IH]; simpl; intros Hnd Hx.
  - constructor; [auto | constructor].
  - inversion Hnd as [|? ? Ha Hnd']; subst. constructor.
    + rewrite in_app_iff. simpl. intros [H|[H|[]]]; [auto|].
      apply Hx. left. symmetry. exact H.
    + apply IH; auto.
Qed.

Lemma store_add_wf (r : ImageRecord) (s : Store) :
  store_wf s -> store_wf (store_add r s).
Proof.
  intros [Hnd Hall]. unfold store_wf, store_add. simpl rows. simpl nextKey.
  split.
  - rewrite map_app. simpl. apply NoDup_snoc; [exact Hnd|].
    intros Hin. apply in_map_iff in Hin. destruct Hin as (x & Hx & Hin).
    rewrite Forall_forall in Hall. destruct (Hall x Hin) as (k & Hk & Hlt).
    rewrite Hk in Hx. inversion Hx. subst k. lia.
  - apply Forall_app. split.
    + eapply Forall_impl; [|exact Hall]. intros x (k & Hk & Hlt).
      exists k. split; [exact Hk | lia].
    + constructor; [|constructor]. exists (nextKey s). simpl.
      split; [reflexivity | lia].
Qed.

Lemma update_first_wf (p : ImageRecord -> bool)
  (f : ImageRecord -> ImageRecord) (s : Store) :
  (forall x, id (f x) = id x) -> store_wf s ->
  store_wf (with_rows (update_first p f (rows s)) s).
Proof.
  intros Hf [Hnd Hall]. unfold store_wf. simpl rows. simpl nextKey.
  rewrite update_first_map by exact Hf. split; [exact Hnd|].
  apply Forall_forall. intros x Hin.
  rewrite Forall_forall in Hall.
  apply update_first_others in Hin.
  destruct Hin as [Hin|(y & Hy & _ & ->)]; [auto|].
  rewrite Hf. auto.
Qed.

Lemma openCursor_first_wf (p : ImageRecord -> bool)
  (f : ImageRecord -> ImageRecord) (s : Store) :
  (forall x, id (f x) = id x) -> store_wf s ->
  match openCursor_first p f (rows s) with
  | Some rs => store_wf (with_rows rs s)
  | None => True
  end.
Proof.
  intros Hf Hwf. rewrite openCursor_first_update.
  destruct (existsb p (rows s)); [|exact I].
  apply update_first_wf; assumption.
Qed.

Lemma keeps_id_renameCategory (oldName newName : str) :
  keeps_id (renameCategory_step oldName newName).
Proof.
  intros r v. rewrite renameCategory_step_unfold.
  destruct (strict_eq (category r) (Str oldName)); [|discriminate].
  intros E. inversion E. reflexivity.
Qed.

Lemma keeps_id_deleteCategory (nm : str) : keeps_id (deleteCategory_step nm).
Proof.
  intros r v. unfold deleteCategory_step.
  destruct (strict_eq (category r) (Str nm)); [|discriminate].
  destruct (truthy (isEmptyCategory r)); [discriminate|].
  intros E. inversion E. reflexivity.
Qed.

Lemma keeps_id_renameTagNew (oldName newName : str) :
  keeps_id (renameTagNew_step oldName newName).
Proof.
  intros r v. unfold renameTagNew_step.
  destruct (tags r) as [ts|]; [|discriminate].
  destruct (includes_str ts oldName); [|discriminate].
  intros E. inversion E. reflexivity.
Qed.

Lemma keeps_id_deleteTagNew (nm : str) : keeps_id (deleteTagNew_step nm).
Proof.
  intros r v. unfold deleteTagNew_step.
  destruct (tags r) as [ts|]; [|discriminate].
  destruct (includes_str ts nm); [|discriminate].
  intros E. inversion E. reflexivity.
Qed.

(** X16.  Every operation that writes to the store through [add] or a
    cursor keeps the store well formed: each row has a key below the key
    generator and no key occurs twice.  This holds for saving,
    overwriting, adding, renaming and deleting a category, renaming and
    deleting a tag, setting tags by name or key, and deleting the
    selection. *)
Theorem store_wf_preserved (confirm : str -> bool) (now : str) (file : File)
  (cat nm oldName newName : str) (ts : list str) (k : N) (st : State) :
  store_wf (db st) ->
  store_wf (db (saveImage confirm now file cat st))
  /\ store_wf (db (saveImageWithCurrentTags confirm now file cat ts st))
  /\ store_wf (db (snd (addCategory now nm st)))
  /\ store_wf (db (snd (renameCategory oldName newName st)))
  /\ store_wf (db (deleteCategory nm st))
  /\ store_wf (db (snd (renameTagNew oldName newName st)))
  /\ store_wf (db (deleteTagNew nm st))
  /\ store_wf (db (updateImageTagsByName nm ts st))
  /\ store_wf (db (updateImageTags k ts st))
  /\ store_wf (db (deleteSelectedImages st)).
Proof.
  intros Hwf.
  repeat match goal with |- _ /\ _ => split end.
  - unfold saveImage.
    destruct (checkDuplicateImage (allImages st) (file_name file)).
    + destruct (confirm (file_name file)); [|exact Hwf].
      unfold updateExistingImage.
      match goal with
      | |- context [openCursor_first ?p ?f (rows (db st))] =>
          pose proof (openCursor_first_wf p f (s := db st)
                        (fun x => eq_refl) Hwf) as H;
          destruct (openCursor_first p f (rows (db st)))
      end; [exact H | exact Hwf].
    + apply store_add_wf. exact Hwf.
  - unfold saveImageWithCurrentTags.
    destruct (checkDuplicateImage (allImages st) (file_name file)).
    + destruct (confirm (file_name file)); [|exact Hwf].
      unfold updateExistingImageWithTags.
      match goal with
      | |- context [openCursor_first ?p ?f (rows (db st))] =>
          pose proof (openCursor_first_wf p f (s := db st)
                        (fun x => eq_refl) Hwf) as H;
          destruct (openCursor_first p f (rows (db st)))
      end; [exact H | exact Hwf].
    + apply store_add_wf. exact Hwf.
  - unfold addCategory.
    destruct (str_eqb nm QUANBU || str_eqb nm OTHER); [exact Hwf|].
    destruct (includes (existingCategories (allImages st)) (Str nm));
      [exact Hwf|].
    apply store_add_wf. exact Hwf.
  - unfold renameCategory.
    destruct (str_eqb newName QUANBU || str_eqb newName OTHER); [exact Hwf|].
    destruct (includes (existingCategories (allImages st)) (Str newName));
      [exact Hwf|].
    apply (openCursor_wf (keeps_id_renameCategory oldName newName) Hwf).
  - apply (openCursor_wf (keeps_id_deleteCategory nm) Hwf).
  - unfold renameTagNew.
    destruct (includes_str (existingTags (allImages st)) newName);
      [exact Hwf|].
    apply (openCursor_wf (keeps_id_renameTagNew oldName newName) Hwf).
  - apply (openCursor_wf (keeps_id_deleteTagNew nm) Hwf).
  - unfold updateImageTagsByName.
    match goal with
    | |- context [openCursor_first ?p ?f (rows (db st))] =>
        pose proof (openCursor_first_wf p f (s := db st)
                      (fun x => eq_refl) Hwf) as H;
        destruct (openCursor_first p f (rows (db st)))
    end; [exact H | exact Hwf].
  - unfold updateImageTags.
    match goal with
    | |- context [openCursor_first ?p ?f (rows (db st))] =>
        pose proof (openCursor_first_wf p f (s := db st)
                      (fun x => eq_refl) Hwf) as H;
        destruct (openCursor_first p f (rows (db st)))
    end; [exact H | exact Hwf].
  - unfold deleteSelectedImages.
    destruct (Nat.eqb (JSSet.size (selectedIds st)) 0); [exact Hwf|].
    simpl db.
    apply (openCursor_wf (s := db st)).
    + intros r v. destruct (has_id (selectedIds st) r); discriminate.
    + exact Hwf.
Qed.

Lemma store_wf_preserved_witness :
  store_wf (db (saveImage (fun _ => true) SAMPLE_DATE
                  {| file_name := lit "z.png"; file_dataURL := SAMPLE_DATA |}
                  (lit "Lab") tagged_state))
  /\ store_wf (db (deleteCategory (lit "Lab") tagged_state)).
Proof.
  assert (Hwf : store_wf (db tagged_state)).
  { split.
    - simpl. repeat constructor; simpl; intuition discriminate.
    - simpl. repeat constructor; eexists; (split; [reflexivity|]);
        reflexivity. }
  pose proof (@store_wf_preserved (fun _ => true) SAMPLE_DATE
                {| file_name := lit "z.png"; file_dataURL := SAMPLE_DATA |}
                (lit "Lab") (lit "Lab") (lit "PBT") (lit "PET") [] 1%N
                tagged_state Hwf) as H.
  split; [apply H | apply H].
Defined.

(** ** Saving keeps names unique *)

Lemma checkDuplicateImage_not_in (imgs : list ImageRecord) (nm : str) :
  checkDuplicateImage imgs nm = false -> ~ In nm (map name imgs).
Proof.
  intros H Hin. apply in_map_iff in Hin. destruct Hin as (img & E & Hin).
  assert (Ht : checkDuplicateImage imgs nm = true).
  { unfold checkDuplicateImage. apply existsb_exists. exists img.
    split; [exact Hin | apply str_eqb_eq; exact E]. }
  congruence.
Qed.

(** X17.  If the snapshot mirrors the store and no two rows share a
    name, then after [saveImage] and after [saveImageWithCurrentTags],
    whatever the user answers to the overwrite prompt, the snapshot
    still mirrors the store and no two rows share a name. *)
Theorem saveImage_keeps_names_unique (confirm : str -> bool) (now : str)
  (file : File) (cat : str) (ts : list str) (st : State) :
  in_sync st -> names_unique (db st) ->
  in_sync (saveImage confirm now file cat st)
  /\ names_unique (db (saveImage confirm now file cat st))
  /\ in_sync (saveImageWithCurrentTags confirm now file cat ts st)
  /\ names_unique (db (saveImageWithCurrentTags confirm now file cat ts st)).
Proof.
  unfold in_sync, names_unique. intros Hsync Hnd.
  assert (Hfresh : checkDuplicateImage (allImages st) (file_name file) = false ->
                   NoDup (map name (rows (db st)) ++ [file_name file])).
  { intros Hc. apply NoDup_snoc; [exact Hnd|].
    rewrite <- Hsync. apply checkDuplicateImage_not_in. exact Hc. }
  unfold saveImage, saveImageWithCurrentTags, updateExistingImage,
    updateExistingImageWithTags.
  rewrite !openCursor_first_update.
  destruct (checkDuplicateImage (allImages st) (file_name file)) eqn:Ec.
  - destruct (confirm (file_name file)); [|auto].
    destruct (existsb _ (rows (db st))); [|auto].
    simpl. rewrite !update_first_map by reflexivity. auto.
  - simpl. rewrite !map_app. simpl. auto.
Qed.

Lemma saveImage_keeps_names_unique_witness :
  in_sync (saveImage (fun _ => true) SAMPLE_DATE
             {| file_name := lit "x_DSC.jpg"; file_dataURL := SAMPLE_DATA |}
             (lit "Other") tagged_state)
  /\ names_unique (db (saveImage (fun _ => true) SAMPLE_DATE
                         {| file_name := lit "x_DSC.jpg";
                            file_dataURL := SAMPLE_DATA |}
                         (lit "Other") tagged_state)).
Proof.
  pose proof (@saveImage_keeps_names_unique (fun _ => true) SAMPLE_DATE
                {| file_name := lit "x_DSC.jpg"; file_dataURL := SAMPLE_DATA |}
                (lit "Other") [] tagged_state) as H.
  destruct H as (H1 & H2 & _).
  - reflexivity.
  - unfold names_unique. simpl.
    repeat constructor; simpl; intuition discriminate.
  - split; assumption.
Defined.

(** ** Dropping a file on the gallery *)

Section DropFacts.

Context {casing : Casing}.

(** X18.  An image file with a new name, dropped while the snapshot
    mirrors the store, is stored under the current category filter (as
    the category ['all'] when the filter is ['all']) with the current
    tag filters as its tags, and it appears at the end of the gallery
    under the filters in force, provided its name passes the mode
    filter. *)
Theorem handleDrop_file_appears (confirm : str -> bool) (now ftype : str)
  (file : File) (st : State) :
  in_sync st ->
  startsWith ftype (lit "image/") = true ->
  checkDuplicateImage (allImages st) (file_name file) = false ->
  (mode_active (currentModeFilter st) = true ->
   hasSuffix (file_name file) (currentModeFilter st) = true) ->
  renderGallery_filtered (handleDrop_file confirm now ftype file st)
  = renderGallery_filtered st
    ++ [{| id := Some (nextKey (db st)); name := file_name file;
           category := Str (currentFilter st);
           tags := Some (currentTagFilters st);
           data := file_dataURL file; date := now;
           isEmptyCategory := Undefined |}].
Proof.
  intros Hsync Htype Hfresh Hmode. unfold in_sync in Hsync.
  rewrite !renderGallery_filtered_pred.
  unfold handleDrop_file, saveImageWithCurrentTags.
  rewrite Htype, Hfresh. simpl allImages.
  assert (Hp : forall r,
             visible_pred
               (loadImages
                  (with_db
                     (store_add
                        {| id := None; name := file_name file;
                           category := JS.or (Str (currentFilter st)) (Str []);
                           tags := Some (currentTagFilters st);
                           data := file_dataURL file; date := now;
                           isEmptyCategory := Undefined |} (db st)) st)) r
             = visible_pred st r) by reflexivity.
  rewrite (filter_ext _ _ Hp).
  unfold store_add. simpl rows. rewrite filter_app, <- Hsync. f_equal.
  assert (Hcat : JS.or (Str (currentFilter st)) (Str [])
                 = Str (currentFilter st)).
  { unfold JS.or. destruct (currentFilter st); reflexivity. }
  unfold set_id. simpl. rewrite Hcat.
  match goal with
  | |- (if ?c then _ else _) = _ => assert (Hc : c = true); [|rewrite Hc; reflexivity]
  end.
  unfold visible_pred. simpl.
  rewrite !andb_true_iff. repeat split.
  - destruct (str_eqb (currentFilter st) ALL_FILTER); simpl; [reflexivity|].
    destruct (str_eqb (currentFilter st) OTHER) eqn:Eo.
    + apply str_eqb_eq in Eo. rewrite Eo. reflexivity.
    + apply str_eqb_refl.
  - destruct (currentTagFilters st) as [|t ts] eqn:Et; [reflexivity|].
    simpl Nat.ltb. cbv iota. unfold tags_match. simpl tags.
    apply forallb_forall. intros x Hx. apply includes_str_In. exact Hx.
  - destruct (mode_active (currentModeFilter st)); [|reflexivity].
    apply Hmode. reflexivity.
Qed.

End DropFacts.

Lemma handleDrop_file_appears_witness :
  renderGallery_filtered (casing := ascii_casing)
    (handleDrop_file (fun _ => false) SAMPLE_DATE (lit "image/png")
       {| file_name := lit "z.png"; file_dataURL := SAMPLE_DATA |}
       tagged_state)
  = renderGallery_filtered (casing := ascii_casing) tagged_state
    ++ [{| id := Some 3%N; name := lit "z.png";
           category := Str (lit "all");
           tags := Some [lit "PBT"];
           data := SAMPLE_DATA; date := SAMPLE_DATE;
           isEmptyCategory := Undefined |}].
Proof.
  apply (@handleDrop_file_appears ascii_casing (fun _ => false) SAMPLE_DATE
           (lit "image/png")
           {| file_name := lit "z.png"; file_dataURL := SAMPLE_DATA |}
           tagged_state).
  - reflexivity.
  - reflexivity.
  - reflexivity.
  - discriminate.
Defined.

(** ** Adding a category *)

Lemma existingCategories_In (imgs : list ImageRecord) (nm : str) :
  includes (existingCategories imgs) (Str nm) = true
  <-> nm <> [] /\ exists img, In img imgs /\ category img = Str nm.
Proof.
  unfold existingCategories.
  rewrite includes_In, dedup_In, filter_In, in_map_iff. split.
  - intros [(img & E & Hin) Ht]. split.
    + intros ->. discriminate.
    + exists img. auto.
  - intros [Hne (img & Hin & E)]. split.
    + exists img. auto.
    + destruct nm; [congruence | reflexivity].
Qed.

Lemma startsWith_app (p s : str) : startsWith (p ++ s) p = true.
Proof.
  induction p as [|c p IH]; simpl; [destruct s; reflexivity|].
  rewrite N.eqb_refl. exact IH.
Qed.

Section AddCategoryFacts.

Context {casing : Casing}.

(** X19.  [addCategory] refuses ['全部'] and ['其他'], and refuses a
    non-empty name exactly when some record of the snapshot, real or
    sentinel, already has it as its category; a refusal leaves the
    state as it was. *)
Theorem addCategory_rejections (now nm : str) (st : State) :
  (nm = QUANBU \/ nm = OTHER ->
   addCategory now nm st = (RejectedReserved, st))
  /\ (fst (addCategory now nm st) = RejectedExists
      <-> nm <> QUANBU /\ nm <> OTHER /\ nm <> []
          /\ exists img, In img (allImages st) /\ category img = Str nm)
  /\ (fst (addCategory now nm st) <> Succeeded ->
      snd (addCategory now nm st) = st).
Proof.
  unfold addCategory. split; [|split].
  - intros [-> | ->]; reflexivity.
  - destruct (str_eqb nm QUANBU) eqn:E1; simpl.
    { apply str_eqb_eq in E1. split; [discriminate | tauto]. }
    destruct (str_eqb nm OTHER) eqn:E2; simpl.
    { apply str_eqb_eq in E2. split; [discriminate | tauto]. }
    apply str_eqb_neq in E1. apply str_eqb_neq in E2.
    pose proof (existingCategories_In (allImages st) nm) as Hex.
    destruct (includes (existingCategories (allImages st)) (Str nm)); simpl.
    + split; [|reflexivity]. intros _.
      destruct Hex as [Hex _]. destruct (Hex eq_refl) as [H1 H2]. auto.
    + split; [discriminate|]. intros (_ & _ & H1 & H2).
      destruct Hex as [_ Hex].
      assert (Hf : false = true) by (apply Hex; auto). discriminate.
  - destruct (str_eqb nm QUANBU || str_eqb nm OTHER); [reflexivity|].
    destruct (includes (existingCategories (allImages st)) (Str nm));
      [reflexivity|].
    simpl. intros H. congruence.
Qed.

(** X20.  When the snapshot mirrors the store and [addCategory]
    succeeds, the store gains one row, the sentinel of the category; the
    gallery shows what it showed before; the side bar lists the
    category (unless its name is empty or ['all']); and adding the same
    non-empty name again is refused. *)
Theorem addCategory_success (now nm : str) (st : State) :
  in_sync st ->
  fst (addCategory now nm st) = Succeeded ->
  rows (db (snd (addCategory now nm st)))
  = rows (db st)
    ++ [{| id := Some (nextKey (db st)); name := EMPTY_PREFIX ++ nm;
           category := Str nm; tags := Some []; data := []; date := now;
           isEmptyCategory := Bool true |}]
  /\ in_sync (snd (addCategory now nm st))
  /\ renderGallery_filtered (snd (addCategory now nm st))
     = renderGallery_filtered st
  /\ (nm <> [] -> nm <> ALL_FILTER ->
      In (Str nm)
         (renderCategories_allCategories
            (allImages (snd (addCategory now nm st)))))
  /\ (nm <> [] ->
      forall later,
        addCategory later nm (snd (addCategory now nm st))
        = (RejectedExists, snd (addCategory now nm st))).
Proof.
  unfold in_sync. intros Hsync. unfold addCategory.
  destruct (str_eqb nm QUANBU || str_eqb nm OTHER) eqn:Eres; [discriminate|].
  destruct (includes (existingCategories (allImages st)) (Str nm));
    [discriminate|].
  intros _. cbn [snd fst].
  set (s := {| id := None; name := EMPTY_PREFIX ++ nm; category := Str nm;
               tags := Some []; data := []; date := now;
               isEmptyCategory := Bool true |}).
  split; [reflexivity|]. split; [reflexivity|].
  split; [|split].
  - rewrite !renderGallery_filtered_pred. simpl allImages.
    unfold store_add. simpl rows. rewrite filter_app, <- Hsync.
    assert (Hp : forall r,
               visible_pred (loadImages (with_db (store_add s (db st)) st)) r
               = visible_pred st r) by reflexivity.
    unfold store_add in Hp. rewrite (filter_ext _ _ Hp).
    simpl. apply app_nil_r.
  - intros Hne Hall. apply renderCategories_members.
    apply orb_false_iff in Eres. destruct Eres as [E1 E2].
    apply str_eqb_neq in E1. apply str_eqb_neq in E2.
    destruct (strict_eq (Str nm) (Str OTHER)) eqn:Eo;
      [apply strict_eq_eq in Eo; auto|].
    right. split; [discriminate|].
    split; [congruence|]. split; [congruence|]. split; [congruence|].
    exists (set_id (Some (nextKey (db st))) s).
    split; [|split].
    + simpl. apply in_or_app. right. left. reflexivity.
    + reflexivity.
    + right. split; [reflexivity|]. apply startsWith_app.
  - intros Hne later. rewrite ?Eres.
    assert (Hin : includes
                    (existingCategories
                       (allImages (loadImages (with_db (store_add s (db st)) st))))
                    (Str nm) = true).
    { apply existingCategories_In. split; [exact Hne|].
      exists (set_id (Some (nextKey (db st))) s). split; [|reflexivity].
      simpl. apply in_or_app. right. left. reflexivity. }
    rewrite Hin. reflexivity.
Qed.

End AddCategoryFacts.

Lemma addCategory_success_witness :
  rows (db (snd (addCategory SAMPLE_DATE (lit "Lab") initial_state)))
  = [sentinel_record 1 (lit "Lab")]
  /\ renderGallery_filtered (casing := ascii_casing)
       (snd (addCategory SAMPLE_DATE (lit "Lab") initial_state))
     = []
  /\ In (Str (lit "Lab"))
        (renderCategories_allCategories
           (allImages (snd (addCategory SAMPLE_DATE (lit "Lab")
                                        initial_state)))).
Proof.
  pose proof (@addCategory_success ascii_casing SAMPLE_DATE (lit "Lab")
                initial_state eq_refl eq_refl) as (H1 & _ & H3 & H4 & _).
  split; [exact H1|]. split; [exact H3|].
  apply H4; discriminate.
Defined.

(** ** The category list after deleting or renaming a category *)

Lemma deleteCategory_row_In (A : str) (l : list ImageRecord)
  (x : ImageRecord) :
  In x (flat_map (deleteCategory_row A) l)
  <-> exists r, In r l
                /\ ((category r <> Str A /\ x = r)
                    \/ (category r = Str A /\ is_real r = true
                        /\ x = set_category Null r)).
Proof.
  rewrite in_flat_map. split.
  - intros (r & Hin & Hx). exists r. split; [exact Hin|].
    unfold deleteCategory_row in Hx.
    destruct (strict_eq (category r) (Str A)) eqn:E.
    + apply strict_eq_eq in E. destruct (is_real r) eqn:Er; [|destruct Hx].
      destruct Hx as [<-|[]]. right. auto.
    + apply strict_eq_Str_false in E. destruct Hx as [<-|[]]. left. auto.
  - intros (r & Hin & [[Hc ->]|(Hc & Hr & ->)]); exists r;
      (split; [exact Hin|]); unfold deleteCategory_row.
    + apply strict_eq_Str_false in Hc. rewrite Hc. left. reflexivity.
    + apply strict_eq_eq in Hc. rewrite Hc, Hr. left. reflexivity.
Qed.

Lemma renderCategories_members' (imgs : list ImageRecord) (c : value) :
  In c (renderCategories_allCategories imgs)
  <-> c = Str OTHER
      \/ (c <> Undefined /\ c <> Str [] /\ c <> Str ALL_FILTER
          /\ c <> Str QUANBU
          /\ exists img,
               In img imgs /\ category img = c /\ reports_category img).
Proof. apply renderCategories_members. Qed.

(** X21.  After [deleteCategory(A)] on a state whose snapshot mirrors
    the store, the side bar no longer lists [A] (unless [A] is ['其他'],
    which is always listed), every other category is listed exactly if
    it was listed before, and when a real record was in [A] the list
    gains the entry [null], the category that the scan wrote into
    it. *)
Theorem deleteCategory_listing (A : str) (st : State) :
  in_sync st ->
  (A <> OTHER ->
   ~ In (Str A)
        (renderCategories_allCategories (allImages (deleteCategory A st))))
  /\ (forall c, c <> Str A -> c <> Null ->
        (In c (renderCategories_allCategories
                 (allImages (deleteCategory A st)))
         <-> In c (renderCategories_allCategories (allImages st))))
  /\ ((exists img, In img (allImages st) /\ is_real img = true
                   /\ category img = Str A) ->
      In Null (renderCategories_allCategories
                 (allImages (deleteCategory A st)))).
Proof.
  unfold in_sync. intros Hsync.
  assert (Hall : allImages (deleteCategory A st)
                 = flat_map (deleteCategory_row A) (allImages st)).
  { rewrite Hsync. unfold deleteCategory. simpl allImages.
    apply deleteCategory_scan. }
  rewrite Hall. split; [|split].
  - intros Hne Hin. apply renderCategories_members' in Hin.
    destruct Hin as [E|(_ & _ & _ & _ & img & Hin & Hc & _)].
    + inversion E. contradiction.
    + apply deleteCategory_row_In in Hin.
      destruct Hin as (r & _ & [[Hr ->]|(_ & _ & ->)]);
        [contradiction | discriminate].
  - intros c HcA HcN. rewrite !renderCategories_members'.
    split; (intros [E|(H1 & H2 & H3 & H4 & img & Hin & Hc & Hrep)];
            [left; exact E|]; right; repeat (split; [assumption|])).
    + apply deleteCategory_row_In in Hin.
      destruct Hin as (r & Hr & [[_ ->]|(_ & _ & ->)]).
      * exists r. auto.
      * simpl in Hc. congruence.
    + exists img. split; [|auto]. apply deleteCategory_row_In.
      exists img. split; [exact Hin|]. left. split; [congruence | reflexivity].
  - intros (img & Hin & Hreal & Hc). apply renderCategories_members'.
    right. repeat (split; [discriminate|]).
    exists (set_category Null img). split; [|split].
    + apply deleteCategory_row_In. exists img. split; [exact Hin|].
      right. auto.
    + reflexivity.
    + left. exact Hreal.
Qed.

Lemma deleteCategory_listing_witness :
  ~ In (Str (lit "Lab"))
       (renderCategories_allCategories
          (allImages (deleteCategory (lit "Lab") tagged_state)))
  /\ In Null
        (renderCategories_allCategories
           (allImages (deleteCategory (lit "Lab") tagged_state))).
Proof.
  pose proof (@deleteCategory_listing (lit "Lab") tagged_state eq_refl)
    as (H1 & _ & H3).
  split.
  - apply H1. discriminate.
  - apply H3. eexists. split; [left; reflexivity|]. split; reflexivity.
Defined.

(** X22.  After an accepted [renameCategory(old, new)] with two
    different names, on a state whose snapshot mirrors the store, the
    side bar no longer lists [old] (unless it is ['其他']); it lists
    [new] if it listed [old] and [new] is neither empty nor ['all'];
    and every other category is listed exactly if it was before. *)
Theorem renameCategory_listing (oldName newName : str) (st : State) :
  in_sync st ->
  fst (renameCategory oldName newName st) = Succeeded ->
  oldName <> newName ->
  (oldName <> OTHER ->
   ~ In (Str oldName)
        (renderCategories_allCategories
           (allImages (snd (renameCategory oldName newName st)))))
  /\ (oldName <> OTHER -> newName <> [] -> newName <> ALL_FILTER ->
      In (Str oldName) (renderCategories_allCategories (allImages st)) ->
      In (Str newName)
         (renderCategories_allCategories
            (allImages (snd (renameCategory oldName newName st)))))
  /\ (forall c, c <> Str oldName -> c <> Str newName ->
        (In c (renderCategories_allCategories
                 (allImages (snd (renameCategory oldName newName st))))
         <-> In c (renderCategories_allCategories (allImages st)))).
Proof.
  unfold in_sync. intros Hsync Hok Hneq.
  assert (Hall : allImages (snd (renameCategory oldName newName st))
                 = map (fun r => if strict_eq (category r) (Str oldName)
                                 then set_category (Str newName) r else r)
                       (allImages st)).
  { rewrite Hsync, <- (renameCategory_categories _ _ _ Hok).
    unfold renameCategory in *.
    destruct (str_eqb newName QUANBU || str_eqb newName OTHER);
      [discriminate|].
    destruct (includes (existingCategories (allImages st)) (Str newName));
      [discriminate | reflexivity]. }
  assert (Hnew : newName <> QUANBU).
  { unfold renameCategory in Hok.
    destruct (str_eqb newName QUANBU) eqn:E; [discriminate|].
    apply str_eqb_neq. exact E. }
  rewrite Hall. clear Hall Hok.
  split; [|split].
  - intros Hne Hin. apply renderCategories_members' in Hin.
    destruct Hin as [E|(_ & _ & _ & _ & img & Hin & Hc & _)].
    + inversion E. contradiction.
    + apply in_map_iff in Hin. destruct Hin as (r & <- & _).
      destruct (strict_eq (category r) (Str oldName)) eqn:E.
      * simpl in Hc. inversion Hc. auto.
      * apply strict_eq_Str_false in E. contradiction.
  - intros Hne Hn1 Hn2 Hin. apply renderCategories_members' in Hin.
    destruct Hin as [E|(_ & _ & _ & _ & img & Hin & Hc & Hrep)].
    + inversion E. contradiction.
    + apply renderCategories_members'. right.
      split; [discriminate|]. split; [congruence|].
      split; [congruence|]. split; [congruence|].
      exists (set_category (Str newName) img). split; [|split].
      * apply in_map_iff. exists img. split; [|exact Hin].
        apply strict_eq_eq in Hc. rewrite Hc. reflexivity.
      * reflexivity.
      * exact Hrep.
  - intros c Hco Hcn. rewrite !renderCategories_members'.
    split; (intros [E|(H1 & H2 & H3 & H4 & img & Hin & Hc & Hrep)];
            [left; exact E|]; right; repeat (split; [assumption|])).
    + apply in_map_iff in Hin. destruct Hin as (r & <- & Hr).
      destruct (strict_eq (category r) (Str oldName)) eqn:E.
      * simpl in Hc. congruence.
      * exists r. auto.
    + exists img. split; [|auto]. apply in_map_iff. exists img.
      split; [|exact Hin].
      assert (E : strict_eq (category img) (Str oldName) = false)
        by (apply strict_eq_Str_false; congruence).
      rewrite E. reflexivity.
Qed.

Lemma renameCategory_listing_witness :
  ~ In (Str (lit "Lab"))
       (renderCategories_allCategories
          (allImages (snd (renameCategory (lit "Lab") (lit "Bench")
                                          tagged_state))))
  /\ In (Str (lit "Bench"))
        (renderCategories_allCategories
           (allImages (snd (renameCategory (lit "Lab") (lit "Bench")
                                           tagged_state)))).
Proof.
  pose proof (@renameCategory_listing (lit "Lab") (lit "Bench") tagged_state
                eq_refl eq_refl) as H.
  destruct H as (H1 & H2 & _); [discriminate|].
  split.
  - apply H1. discriminate.
  - apply H2; try discriminate. vm_compute. auto.
Defined.

(** ** The list of the management dialog *)

(** X23.  The management dialog lists the categories of the side bar
    and, in addition, the category ['all'] when a real record or a
    prefixed sentinel carries it; ['其他'] is in both lists. *)
Theorem renderCategoriesList_members (imgs : list ImageRecord) (c : value) :
  (In c (renderCategoriesList_allMainCategories imgs)
   <-> In c (renderCategories_allCategories imgs)
       \/ (c = Str ALL_FILTER
           /\ exists img, In img imgs /\ category img = Str ALL_FILTER
                          /\ reports_category img))
  /\ In (Str OTHER) (renderCategoriesList_allMainCategories imgs)
  /\ In (Str OTHER) (renderCategories_allCategories imgs).
Proof.
  assert (Hm : In c (renderCategoriesList_allMainCategories imgs)
               <-> c = Str OTHER
                   \/ (c <> Undefined /\ c <> Str [] /\ c <> Str QUANBU
                       /\ c <> Str OTHER
                       /\ exists img, In img imgs /\ category img = c
                                      /\ reports_category img)).
  { unfold renderCategoriesList_allMainCategories; cbv zeta.
    rewrite sort_In.
    set (cats := filter _ (dedup _)).
    assert (Hc : In c cats
                 <-> c <> Undefined /\ c <> Str [] /\ c <> Str QUANBU
                     /\ c <> Str OTHER
                     /\ exists img, In img imgs /\ category img = c
                                    /\ reports_category img).
    { unfold cats, reports_category.
      rewrite filter_In, dedup_In, in_app_iff, !in_map_iff.
      rewrite !andb_true_iff, !negb_true_iff.
      assert (Hne : forall v, strict_eq c v = false <-> c <> v).
      { intros v. rewrite <- strict_eq_eq.
        destruct (strict_eq c v); split;
          (congruence || intros; exfalso; auto). }
      rewrite !Hne. split.
      - intros [Hsrc (((H1 & H2) & H3) & H4)].
        repeat (split; [assumption|]).
        destruct Hsrc as [(img & E & Hin)|(img & E & Hin)];
          apply filter_In in Hin; destruct Hin as [Hin Hp]; exists img.
        + apply andb_true_iff in Hp. auto.
        + auto.
      - intros (H1 & H2 & H3 & H4 & img & Hin & E & Hp).
        split; [|auto].
        destruct Hp as [Hp|Hp].
        + right. exists img. split; [exact E|]. apply filter_In. auto.
        + left. exists img. split; [exact E|]. apply filter_In.
          split; [exact Hin|]. apply andb_true_iff. exact Hp. }
    destruct (includes cats (Str OTHER)) eqn:Ei; simpl.
    - apply includes_In in Ei. rewrite Hc. split; [tauto|].
      intros [->|H]; [apply Hc; exact Ei | exact H].
    - rewrite in_app_iff, Hc. simpl. split.
      + intros [H|[<-|[]]]; auto.
      + intros [->|H]; auto. }
  split; [|split].
  - rewrite Hm, renderCategories_members'. split.
    + intros [->|(H1 & H2 & H3 & H4 & img & Hin & Hc & Hrep)]; [auto|].
      destruct (strict_eq c (Str ALL_FILTER)) eqn:E.
      * apply strict_eq_eq in E. right. split; [exact E|].
        exists img. split; [exact Hin|]. split; [congruence | exact Hrep].
      * apply strict_eq_Str_false in E. left. right.
        repeat (split; [assumption|]). exists img. auto.
    + intros [[->|(H1 & H2 & H3 & H4 & img & Hin & Hc & Hrep)]
             |(-> & img & Hin & Hc & Hrep)]; [auto| |].
      * destruct (strict_eq c (Str OTHER)) eqn:E.
        -- apply strict_eq_eq in E. auto.
        -- apply strict_eq_Str_false in E. right.
           repeat (split; [assumption|]). exists img. auto.
      * right. repeat (split; [discriminate|]). exists img. auto.
  - clear Hm. unfold renderCategoriesList_allMainCategories; cbv zeta.
    apply sort_In.
    match goal with
    | |- In _ (if negb (includes ?l _) then _ else _) =>
        destruct (includes l (Str OTHER)) eqn:Ei; simpl
    end.
    + apply includes_In. exact Ei.
    + apply in_or_app. right. left. reflexivity.
  - apply renderCategories_members'. left. reflexivity.
Qed.

(** ** Export paths against the import split *)

Lemma split_app (sep : N) (a b : str) :
  split sep (a ++ sep :: b) = split sep a ++ split sep b.
Proof.
  induction a as [|c a IH]; simpl.
  - rewrite N.eqb_refl. reflexivity.
  - rewrite IH. pose proof (split_nonempty sep a) as Hne.
    destruct (N.eqb c sep); [reflexivity|].
    destruct (split sep a) as [|p ps]; [congruence | reflexivity].
Qed.

Lemma last_app_nonempty {A} (l l' : list A) (d : A) :
  l' <> [] -> last (l ++ l') d = last l' d.
Proof.
  intros Hne. induction l as [|x l IH]; simpl; [reflexivity|].
  destruct (l ++ l') eqn:E; [|exact IH].
  apply app_eq_nil in E. destruct E. contradiction.
Qed.

Lemma pop_split_ext (base ext : str) :
  ~ In DOT ext -> pop (split DOT (base ++ DOT :: ext)) = ext.
Proof.
  intros H. unfold pop. rewrite split_app.
  rewrite last_app_nonempty by apply split_nonempty.
  rewrite split_no_sep by exact H. reflexivity.
Qed.

Section ExportFacts.

Context {casing : Casing}.

(** X24.  The archive path that [exportAsZip] gives an image named
    [base.ext] splits on import into the export folder and the file name
    [base.] followed by the lower-cased extension, provided the folder
    name has no slash.  The folder is the category for a non-empty
    category and ['未分类'] for an image without category, so such an
    image comes back with the category ['未分类'], and the name comes
    back unchanged only if the extension was in lower case. *)
Theorem exportAsZip_path_import_split (img : ImageRecord) (base ext : str) :
  name img = base ++ DOT :: ext ->
  ext <> [] ->
  Forall (fun x => x <> SLASH /\ x <> DOT) ext ->
  ~ In SLASH (toString (JS.or (category img) (Str UNCATEGORIZED))) ->
  handleZipFile_split (exportAsZip_path img)
  = (toString (JS.or (category img) (Str UNCATEGORIZED)),
     base ++ DOT :: toLowerCase ext)
  /\ (truthy (category img) = false ->
      fst (handleZipFile_split (exportAsZip_path img)) = UNCATEGORIZED)
  /\ (forall cat, category img = Str cat -> cat <> [] ->
        fst (handleZipFile_split (exportAsZip_path img)) = cat)
  /\ (toLowerCase ext = ext ->
      snd (handleZipFile_split (exportAsZip_path img)) = name img).
Proof.
  intros Hname Hne Hext Hslash.
  assert (Hs : handleZipFile_split (exportAsZip_path img)
               = (toString (JS.or (category img) (Str UNCATEGORIZED)),
                  base ++ DOT :: toLowerCase ext)).
  { unfold exportAsZip_path; cbv zeta. rewrite Hname.
    rewrite removeFileExtension_ext by assumption.
    rewrite pop_split_ext.
    - apply handleZipFile_split_folder. exact Hslash.
    - intros Hin. rewrite Forall_forall in Hext.
      destruct (Hext _ Hin) as [_ H]. apply H. reflexivity. }
  rewrite Hs. cbn [fst snd]. split; [reflexivity|]. split; [|split].
  - intros Hf. unfold JS.or. rewrite Hf. reflexivity.
  - intros cat Hc Hcat. rewrite Hc. unfold JS.or.
    destruct cat; [congruence | reflexivity].
  - intros Hl. rewrite Hl, Hname. reflexivity.
Qed.

End ExportFacts.

Lemma exportAsZip_path_import_split_witness :
  handleZipFile_split
    (exportAsZip_path (casing := ascii_casing)
       (real_record 1 (lit "x_DSC.JPG") Null []))
  = (UNCATEGORIZED, lit "x_DSC.jpg").
Proof.
  pose proof (@exportAsZip_path_import_split ascii_casing
                (real_record 1 (lit "x_DSC.JPG") Null [])
                (lit "x_DSC") (lit "JPG") eq_refl) as H.
  destruct H as [H _].
  - discriminate.
  - repeat constructor; discriminate.
  - vm_compute. intuition discriminate.
  - exact H.
Defined.

(** ** The pages of the compare view *)

(** X25.  [openCompare] with a non-empty selection starts at page 0 on
    the selected records of the snapshot (sentinels included), and with
    an empty selection changes nothing.  [nextPage] and [prevPage] keep
    the page in range; [nextPage] stops at the last page and [prevPage]
    at page 0; and [prevPage] undoes a [nextPage] that moved. *)
Theorem compare_paging (st : State) (cs : CompareState) :
  (selectedIds st <> [] ->
   openCompare st cs
   = {| compareImages := filter (has_id (selectedIds st)) (allImages st);
        currentPage := 0 |}
   /\ page_in_range (openCompare st cs))
  /\ (selectedIds st = [] -> openCompare st cs = cs)
  /\ (page_in_range cs ->
      page_in_range (nextPage cs) /\ page_in_range (prevPage cs)
      /\ (nextPage cs = cs \/ prevPage (nextPage cs) = cs)
      /\ ((Z.of_nat (length (compareImages cs))
           <= (currentPage cs + 1) * IMAGES_PER_PAGE)%Z ->
          nextPage cs = cs)
      /\ (currentPage cs = 0%Z -> prevPage cs = cs)).
Proof.
  split; [|split].
  - intros Hne. unfold openCompare, JSSet.size.
    destruct (selectedIds st); [congruence|]. simpl.
    split; [reflexivity|]. unfold page_in_range. simpl. lia.
  - intros He. unfold openCompare, JSSet.size. rewrite He. reflexivity.
  - unfold page_in_range, nextPage, prevPage, totalPages, IMAGES_PER_PAGE.
    destruct cs as [imgs p]. simpl.
    set (n := Z.of_nat (length imgs)).
    assert (Hn : (0 <= n)%Z) by (unfold n; lia).
    intros [Hp Hr].
    assert (Hdiv : (4 * ((n + 3) / 4) <= n + 3
                    /\ n + 3 < 4 * ((n + 3) / 4) + 4)%Z).
    { pose proof (Z.div_mod (n + 3) 4 ltac:(lia)) as Hdm.
      pose proof (Z.mod_pos_bound (n + 3) 4 ltac:(lia)) as Hmb.
      lia. }
    split; [|split; [|split; [|split]]].
    + destruct (Z.ltb_spec p ((n + 3) / 4 - 1)) as [Hlt|Hge]; simpl.
      * split; [lia|]. right. lia.
      * split; [exact Hp | exact Hr].
    + destruct (Z.ltb_spec 0 p) as [Hpos|Hzero]; simpl.
      * split; [lia|]. right. lia.
      * split; [exact Hp | exact Hr].
    + destruct (Z.ltb_spec p ((n + 3) / 4 - 1)) as [Hlt|Hge];
        [|left; reflexivity].
      right. simpl. destruct (Z.ltb_spec 0 (p + 1)) as [_|Hbad]; [|lia].
      f_equal. lia.
    + intros Hlast.
      destruct (Z.ltb_spec p ((n + 3) / 4 - 1)) as [Hlt|Hge];
        [exfalso; lia | reflexivity].
    + intros Hz. destruct (Z.ltb_spec 0 p) as [Hpos|Hzero];
        [exfalso; lia | reflexivity].
Qed.

Lemma compare_paging_witness :
  page_in_range
    (nextPage {| compareImages := repeat (real_record 1 (lit "a.png") Null [])
                                         5;
                 currentPage := 0 |})
  /\ currentPage
       (nextPage {| compareImages := repeat (real_record 1 (lit "a.png") Null [])
                                            5;
                    currentPage := 0 |})
     = 1%Z.
Proof.
  pose proof (compare_paging initial_state
                {| compareImages := repeat (real_record 1 (lit "a.png") Null [])
                                           5;
                   currentPage := 0 |}) as (_ & _ & H).
  destruct H as (H1 & _).
  - unfold page_in_range. simpl. lia.
  - split; [exact H1 | reflexivity].
Defined.

(** ** The detail dialog *)

Lemma update_first_compose (p : ImageRecord -> bool)
  (f g : ImageRecord -> ImageRecord) (l : list ImageRecord) :
  (forall x, p (f x) = p x) ->
  update_first p g (update_first p f l) = update_first p (fun x => g (f x)) l.
Proof.
  intros H. induction l as [|x l IH]; simpl; [reflexivity|].
  destruct (p x) eqn:E; simpl.
  - rewrite H, E. reflexivity.
  - rewrite E, IH. reflexivity.
Qed.

Lemma update_first_fix (p : ImageRecord -> bool)
  (f : ImageRecord -> ImageRecord) (l : list ImageRecord) (x : ImageRecord) :
  find p l = Some x -> f x = x -> update_first p f l = l.
Proof.
  induction l as [|y l IH]; simpl; [discriminate|].
  destruct (p y); intros Hf Hx.
  - inversion Hf; subst. rewrite Hx. reflexivity.
  - rewrite IH by assumption. reflexivity.
Qed.

Lemma with_allImages_same (st : State) : with_allImages (allImages st) st = st.
Proof. destruct st; reflexivity. Qed.

Lemma filter_added_tag (tag : str) (ts : list str) :
  ~ In tag ts ->
  filter (fun t => negb (str_eqb t tag)) (ts ++ [tag]) = ts.
Proof.
  intros H. rewrite filter_app. simpl. rewrite str_eqb_refl. simpl.
  rewrite app_nil_r. apply filter_absent.
  destruct (includes_str ts tag) eqn:E; [|reflexivity].
  apply includes_str_In in E. contradiction.
Qed.

(** X26.  For the record that the detail dialog is open on, with tag
    list [ts]: [addTagToDetail] changes the snapshot only and never the
    store; adding a tag that is already there, or an empty one, changes
    nothing; adding a new tag appends it, so a duplicate-free list stays
    duplicate-free; and [removeTagFromDetail] of the tag just added
    gives back the state before. *)
Theorem detail_tag_editing (d : option N) (tag : str) (st : State)
  (img : ImageRecord) (ts : list str) :
  find (detail_is d) (allImages st) = Some img ->
  tags img = Some ts ->
  db (addTagToDetail d tag st) = db st
  /\ (In tag ts \/ tag = [] -> addTagToDetail d tag st = st)
  /\ (tag <> [] -> ~ In tag ts ->
      find (detail_is d) (allImages (addTagToDetail d tag st))
      = Some (set_tags (Some (ts ++ [tag])) img)
      /\ (NoDup ts -> NoDup (ts ++ [tag]))
      /\ removeTagFromDetail d tag (addTagToDetail d tag st) = st
      /\ addTagToDetail d tag (addTagToDetail d tag st)
         = addTagToDetail d tag st).
Proof.
  intros Hfind Htags.
  assert (Hte : tags_or_empty img = ts)
    by (unfold tags_or_empty; rewrite Htags; reflexivity).
  assert (Hadd : tag <> [] -> ~ In tag ts ->
                 addTagToDetail d tag st
                 = with_allImages
                     (update_first (detail_is d)
                                   (set_tags (Some (ts ++ [tag])))
                                   (allImages st)) st).
  { intros Hne Hnot. unfold addTagToDetail.
    destruct tag; [congruence|]. simpl negb. cbv iota.
    rewrite Hfind, Hte.
    destruct (includes_str ts (n :: tag)) eqn:E; [|reflexivity].
    apply includes_str_In in E. contradiction. }
  split; [|split].
  - unfold addTagToDetail.
    destruct (negb (truthy (Str tag))); [reflexivity|].
    rewrite Hfind.
    destruct (includes_str (tags_or_empty img) tag); reflexivity.
  - intros [Hin| ->]; unfold addTagToDetail; [|reflexivity].
    destruct (negb (truthy (Str tag))); [reflexivity|].
    rewrite Hfind, Hte.
    apply includes_str_In in Hin. rewrite Hin. reflexivity.
  - intros Hne Hnot.
    assert (Hfound : find (detail_is d) (allImages (addTagToDetail d tag st))
                     = Some (set_tags (Some (ts ++ [tag])) img)).
    { rewrite (Hadd Hne Hnot). simpl allImages.
      rewrite update_first_find by reflexivity.
      rewrite Hfind. reflexivity. }
    split; [exact Hfound|]. split; [|split].
    + intros Hnd. apply NoDup_snoc; assumption.
    + unfold removeTagFromDetail. rewrite Hfound.
      rewrite (Hadd Hne Hnot). simpl allImages.
      rewrite update_first_compose by reflexivity.
      rewrite (update_first_fix _ _ _ Hfind).
      * destruct st; reflexivity.
      * change (tags_or_empty (set_tags (Some (ts ++ [tag])) img))
          with (ts ++ [tag]).
        rewrite filter_added_tag by exact Hnot.
        destruct img; simpl in *. rewrite Htags. reflexivity.
    + unfold addTagToDetail at 1.
      destruct tag as [|c tag']; [congruence|]. simpl negb. cbv iota.
      rewrite Hfound.
      change (tags_or_empty (set_tags (Some (ts ++ [c :: tag'])) img))
        with (ts ++ [c :: tag']).
      assert (Hinc : includes_str (ts ++ [c :: tag']) (c :: tag') = true).
      { apply includes_str_In. apply in_or_app. right. left. reflexivity. }
      rewrite Hinc. reflexivity.
Qed.

Lemma detail_tag_editing_witness :
  removeTagFromDetail (Some 1%N) (lit "PET")
    (addTagToDetail (Some 1%N) (lit "PET") tagged_state)
  = tagged_state
  /\ db (addTagToDetail (Some 1%N) (lit "PET") tagged_state)
     = db tagged_state.
Proof.
  pose proof (@detail_tag_editing (Some 1%N) (lit "PET") tagged_state
                (real_record 1 (lit "x_DSC.jpg") (Str (lit "Lab"))
                             [lit "PBT"])
                [lit "PBT"] eq_refl eq_refl) as (H1 & _ & H3).
  destruct H3 as (_ & _ & H & _).
  - discriminate.
  - simpl. intuition discriminate.
  - split; [exact H | exact H1].
Defined.




(** ** Overwriting an image *)



(** ** The counters of the import *)

Section ImportCountFacts.

Context {casing : Casing}.

(** X29.  One iteration of the import loop: a directory entry and
    [tags.json] change nothing; every other entry is counted once in
    [totalFiles] and at most once in [importedFiles] or [skippedFiles];
    an entry that is not counted as imported leaves the state as it is;
    and an entry whose name exists, met with the overwrite box checked,
    is counted as imported even when the user declines the overwrite
    prompt and nothing is written. *)
Theorem handleZipFile_entry_counts (overwrite : bool) (confirm : str -> bool)
  (now filename : str) (zipEntry : ZipEntry) (st : State)
  (n : ImportCounts) :
  (entry_dir zipEntry = true \/ filename = lit "tags.json" ->
   handleZipFile_entry overwrite confirm now filename zipEntry (st, n)
   = (st, n))
  /\ (entry_dir zipEntry = false -> filename <> lit "tags.json" ->
      totalFiles (snd (handleZipFile_entry overwrite confirm now filename
                                           zipEntry (st, n)))
      = S (totalFiles n)
      /\ (importedFiles (snd (handleZipFile_entry overwrite confirm now
                                filename zipEntry (st, n)))
          + skippedFiles (snd (handleZipFile_entry overwrite confirm now
                                 filename zipEntry (st, n)))
          <= S (importedFiles n + skippedFiles n))%nat)
  /\ (importedFiles (snd (handleZipFile_entry overwrite confirm now filename
                                              zipEntry (st, n)))
      = importedFiles n ->
      fst (handleZipFile_entry overwrite confirm now filename zipEntry (st, n))
      = st)
  /\ (entry_dir zipEntry = false -> filename <> lit "tags.json" ->
      includes_str IMAGE_EXTS
        (toLowerCase (pop (split DOT (snd (handleZipFile_split filename)))))
      = true ->
      checkDuplicateImage (allImages st) (snd (handleZipFile_split filename))
      = true ->
      (overwrite = false ->
       handleZipFile_entry overwrite confirm now filename zipEntry (st, n)
       = (st, {| totalFiles := S (totalFiles n);
                 importedFiles := importedFiles n;
                 skippedFiles := S (skippedFiles n) |}))
      /\ (overwrite = true ->
          confirm (snd (handleZipFile_split filename)) = false ->
          handleZipFile_entry overwrite confirm now filename zipEntry (st, n)
          = (st, {| totalFiles := S (totalFiles n);
                    importedFiles := S (importedFiles n);
                    skippedFiles := skippedFiles n |}))).
Proof.
  unfold handleZipFile_entry.
  split; [|split; [|split]].
  - intros [Hd| ->].
    + rewrite Hd. reflexivity.
    + rewrite str_eqb_refl, orb_true_r. reflexivity.
  - intros Hd Ht. apply str_eqb_neq in Ht. rewrite Hd, Ht. cbn [orb].
    destruct (handleZipFile_split filename) as [cat actual].
    destruct (includes_str IMAGE_EXTS _); [|simpl; lia].
    destruct (match find _ (allImages st) with Some _ => true | None => false end
              && negb overwrite); simpl; lia.
  - destruct (entry_dir zipEntry || str_eqb filename (lit "tags.json"));
      [reflexivity|].
    destruct (handleZipFile_split filename) as [cat actual].
    destruct (includes_str IMAGE_EXTS _); [|reflexivity].
    destruct (match find _ (allImages st) with Some _ => true | None => false end
              && negb overwrite); [reflexivity|].
    simpl. intros H. exfalso. lia.
  - intros Hd Ht Hext Hdup. apply str_eqb_neq in Ht. rewrite Hd, Ht.
    cbn [orb].
    destruct (handleZipFile_split filename) as [cat actual].
    cbn [snd] in *. rewrite Hext.
    assert (Hfind : match find (fun img => str_eqb (name img) actual)
                               (allImages st) with
                    | Some _ => true | None => false end = true).
    { unfold checkDuplicateImage in Hdup. apply existsb_exists in Hdup.
      destruct Hdup as (x & Hin & Hx).
      destruct (find (fun img => str_eqb (name img) actual) (allImages st))
        eqn:E; [reflexivity|].
      rewrite (find_none _ _ E x Hin) in Hx. discriminate. }
    rewrite Hfind. split.
    + intros ->. reflexivity.
    + intros -> Hc. cbn [andb negb].
      rewrite saveImage_declined by assumption. reflexivity.
Qed.

End ImportCountFacts.
